(** * Pivot-table engine of pivot.ts: a shallow embedding and its properties

    The engine is [createPivotTable] with its three helpers
    [getUniqueValues], [matchesGroup] and [aggregateValues].  It is written
    against a handful of JavaScript built-ins (Array.prototype.join, Set,
    Array.prototype.sort, parseFloat, Math.min, Math.max, the [||] operator
    on numbers).  Module [JS] models those built-ins as ECMAScript defines
    them; module [Pivot] is the translation of pivot.ts as a function of
    its two arguments; module [Imp] is the same program with its objects
    in a store, for what a call does to them.  Module [Index] is the part
    of index.ts that turns board items into records, and module [View]
    the table component of PivotTable.tsx.

    Numbers are IEEE 754 binary64 values (Rocq's primitive [float]).
    Strings are [string]; a character stands for one code unit (below 256)
    and strings are ordered by code unit, which is [String.compare].
    A record is a finite map from field names to the values of its own
    properties; it inherits the properties of Object.prototype, as every
    plain object does.  [data] is never null here (the source also
    returns the empty result for a null argument). *)

From Stdlib Require Import ZArith Floats List String Ascii Bool Lia.
From stdpp Require Import base decidable option list sorting gmap strings pretty.

Local Open Scope Z_scope.

(** ** The JavaScript built-ins the engine calls *)
Module JS.

(** The values a record field can hold: the JSON scalars, and
    [Undefined], which is also what reading a missing property gives.
    Reading a property that the record inherits from Object.prototype
    gives a built-in function, or Object.prototype itself. *)
Inductive value :=
| Undefined
| Null
| Bool (b : bool)
| Num (x : float)
| Str (s : string)
| Fun (name : string)
| ObjectPrototype.

(** *** Decimal text to binary64 (StringToNumber, correctly rounded) *)

(** The binary64 nearest to [m * 10^e], ties to even, with sign [neg].
    [SFdiv] rounds the exact quotient of two integers once. *)
Definition decimal_to_float (neg : bool) (m e : Z) : float :=
  if m =? 0 then (if neg then (-0)%float else 0%float)
  else
    let num := m * 10 ^ Z.max e 0 in
    let den := 10 ^ Z.max (- e) 0 in
    SF2Prim (SFdiv prec emax (S754_finite neg (Z.to_pos num) 0)
                             (S754_finite false (Z.to_pos den) 0)).

Definition digit_of (c : ascii) : option Z :=
  let n := Z.of_N (N_of_ascii c) in
  if (48 <=? n) && (n <=? 57) then Some (n - 48) else None.

(** Reads the longest run of decimal digits: the number read so far
    (starting from [acc]), how many digits were read (added to [cnt]),
    and the rest of the text. *)
Fixpoint read_digits (s : string) (acc cnt : Z) : Z * Z * string :=
  match s with
  | String c s' =>
      match digit_of c with
      | Some d => read_digits s' (10 * acc + d) (cnt + 1)
      | None => (acc, cnt, s)
      end
  | EmptyString => (acc, cnt, s)
  end.

(** WhiteSpace and LineTerminator code units below 256. *)
Definition is_ws (c : ascii) : bool :=
  let n := Z.of_N (N_of_ascii c) in
  ((9 <=? n) && (n <=? 13)) || (n =? 32) || (n =? 160).

Fixpoint trim_start (s : string) : string :=
  match s with
  | String c s' => if is_ws c then trim_start s' else s
  | EmptyString => s
  end.

(** ExponentPart of a StrDecimalLiteral; no exponent part counts as 0. *)
Definition read_exponent (s : string) : Z :=
  match s with
  | String c r =>
      if Ascii.eqb c "e" || Ascii.eqb c "E" then
        let '(sg, r') :=
          match r with
          | String "+" r' => (1, r')
          | String "-" r' => (-1, r')
          | _ => (1, r)
          end in
        let '(ev, ne, _) := read_digits r' 0 0 in
        if ne =? 0 then 0 else sg * ev
      else 0
  | EmptyString => 0
  end.

(** The longest prefix that is a StrUnsignedDecimalLiteral, as a number. *)
Definition parse_unsigned (neg : bool) (s : string) : float :=
  if String.prefix "Infinity" s then (if neg then neg_infinity else infinity)
  else
    let '(ip, ni, r1) := read_digits s 0 0 in
    let '(m, nf, r2) :=
      match r1 with
      | String "." r => read_digits r ip 0
      | _ => (ip, 0, r1)
      end in
    if ni + nf =? 0 then nan
    else decimal_to_float neg m (read_exponent r2 - nf).

(** parseFloat on a string. *)
Definition parseFloat_string (s : string) : float :=
  match trim_start s with
  | String "+" r => parse_unsigned false r
  | String "-" r => parse_unsigned true r
  | r => parse_unsigned false r
  end.

(** *** binary64 to decimal text (Number::toString, radix 10) *)

(** [v < 10^n] for the positive rational [v = num / den]. *)
Definition lt_pow10 (num den n : Z) : bool :=
  if 0 <=? n then num <? den * 10 ^ n else num * 10 ^ (- n) <? den.

(** The [n] with [10^(n-1) <= num/den < 10^n], searched upwards. *)
Fixpoint decimal_exponent (fuel : nat) (num den n : Z) : Z :=
  match fuel with
  | O => n
  | S fuel' =>
      if lt_pow10 num den n then n else decimal_exponent fuel' num den (n + 1)
  end.

(** The candidates with [k] digits next to [num/den]: [(s, n, d)] stands
    for [s * 10^(n-k)], and [d] is twice its distance to [num/den] in
    units of [10^(n-k) / (2 * den * q)]. *)
Definition candidates (num den n k : Z) : list (Z * Z * Z) :=
  let p := 10 ^ Z.max (k - n) 0 in
  let q := 10 ^ Z.max (n - k) 0 in
  let lo := (num * p) / (den * q) in
  let r := (num * p) mod (den * q) in
  let hi := lo + 1 in
  (lo, n, r) ::
  (if hi =? 10 ^ k then (10 ^ (k - 1), n + 1, den * q - r)
   else (hi, n, den * q - r)) :: nil.

Definition round_trips (x : float) (k : Z) (c : Z * Z * Z) : bool :=
  let '(s, n, _) := c in
  (10 ^ (k - 1) <=? s) && (decimal_to_float false s (n - k) =? x)%float.

(** Of two candidates the closer one; on a tie the even one. *)
Definition closer (a b : Z * Z * Z) : Z * Z * Z :=
  let '(sa, _, da) := a in
  let '(_, _, db) := b in
  if da <? db then a
  else if db <? da then b
  else if Z.even sa then a else b.

(** The shortest digit string [s] (of [k] digits) and exponent [n] such
    that [s * 10^(n-k)] reads back as [x]. *)
Fixpoint shortest (fuel : nat) (x : float) (num den n k : Z) : Z * Z * Z :=
  match fuel with
  | O => (0, n, k)
  | S fuel' =>
      match List.filter (round_trips x k) (candidates num den n k) with
      | a :: b :: _ => let '(s, n', _) := closer a b in (s, n', k)
      | a :: nil => let '(s, n', _) := a in (s, n', k)
      | nil => shortest fuel' x num den n (k + 1)
      end
  end.

Definition zeros (n : Z) : string := string_of_list_ascii (repeat "0"%char (Z.to_nat n)).

Definition str_take (n : Z) (s : string) : string := String.substring 0 (Z.to_nat n) s.
Definition str_drop (n : Z) (s : string) : string :=
  String.substring (Z.to_nat n) (String.length s - Z.to_nat n) s.

Definition format_decimal (s n k : Z) : string :=
  let ds : string := pretty s in
  if (k <=? n) && (n <=? 21) then ds +:+ zeros (n - k)
  else if (0 <? n) && (n <=? 21) then str_take n ds +:+ "." +:+ str_drop n ds
  else if (-6 <? n) && (n <=? 0) then "0." +:+ zeros (- n) +:+ ds
  else
    let e := n - 1 in
    let es : string := (if e <? 0 then "-" else "+") +:+ pretty (Z.abs e) in
    if k =? 1 then ds +:+ "e" +:+ es
    else str_take 1 ds +:+ "." +:+ str_drop 1 ds +:+ "e" +:+ es.

Definition Number_toString (x : float) : string :=
  match Prim2SF x with
  | S754_nan => "NaN"
  | S754_zero _ => "0"
  | S754_infinity neg => if neg then "-Infinity" else "Infinity"
  | S754_finite neg m e =>
      let num := Z.pos m * 2 ^ Z.max e 0 in
      let den := 2 ^ Z.max (- e) 0 in
      let n := decimal_exponent 700 num den (-330) in
      let '(s, n', k) := shortest 17 (abs x) num den n 1 in
      (if neg then "-" else "") +:+ format_decimal s n' k
  end.

(** *** ToString, Array.prototype.join, parseFloat *)

(** ToString.  ECMAScript leaves the exact text of a built-in function to
    the engine; it is given here as V8 (Node, Chrome) prints it. *)
Definition ToString (v : value) : string :=
  match v with
  | Undefined => "undefined"
  | Null => "null"
  | Bool b => if b then "true" else "false"
  | Num x => Number_toString x
  | Str s => s
  | Fun name => "function " +:+ name +:+ "() { [native code] }"
  | ObjectPrototype => "[object Object]"
  end.

(** The properties of Object.prototype, which every record inherits: its
    methods, each with the name of the function it holds, and the
    accessor [__proto__], which reads as Object.prototype itself. *)
Definition Object_prototype_methods : list (string * string) :=
  [ ("constructor", "Object");
    ("__defineGetter__", "__defineGetter__");
    ("__defineSetter__", "__defineSetter__");
    ("hasOwnProperty", "hasOwnProperty");
    ("__lookupGetter__", "__lookupGetter__");
    ("__lookupSetter__", "__lookupSetter__");
    ("isPrototypeOf", "isPrototypeOf");
    ("propertyIsEnumerable", "propertyIsEnumerable");
    ("toString", "toString");
    ("valueOf", "valueOf");
    ("toLocaleString", "toLocaleString") ].

Definition Object_prototype_names : list string :=
  "__proto__" :: map fst Object_prototype_methods.

Fixpoint method_name (methods : list (string * string)) (field : string) : option string :=
  match methods with
  | nil => None
  | (property, name) :: methods' =>
      if String.eqb field property then Some name else method_name methods' field
  end.

(** Reading [field] on Object.prototype. *)
Definition Object_prototype_get (field : string) : value :=
  if String.eqb field "__proto__" then ObjectPrototype
  else
    match method_name Object_prototype_methods field with
    | Some name => Fun name
    | None => Undefined
    end.

(** Array.prototype.join: the result [R] starts empty; before every
    element but the first the separator is appended; an element that is
    undefined or null contributes the empty string, any other one its
    ToString. *)
Definition join_next (element : value) : string :=
  match element with
  | Undefined | Null => ""
  | _ => ToString element
  end.

Fixpoint join_from (sep : string) (R : string) (first : bool) (l : list value) : string :=
  match l with
  | nil => R
  | element :: l' =>
      let R := if first then R else R +:+ sep in
      join_from sep (R +:+ join_next element) false l'
  end.

Definition Array_join (l : list value) (sep : string) : string :=
  join_from sep "" true l.

(** parseFloat applies ToString to its argument first. *)
Definition parseFloat (v : value) : float := parseFloat_string (ToString v).

(** [x || 0] on a number: NaN, +0 and -0 are falsy. *)
Definition or_zero (x : float) : float :=
  if PrimFloat.is_nan x || PrimFloat.is_zero x then 0%float else x.

(** *** Numbers *)

(** The Number value of a length. *)
Definition Number_of_nat (n : nat) : float :=
  SF2Prim (binary_normalize prec emax (Z.of_nat n) 0 false).

Definition is_neg_zero (x : float) : bool :=
  match Prim2SF x with S754_zero true => true | _ => false end.
Definition is_pos_zero (x : float) : bool :=
  match Prim2SF x with S754_zero false => true | _ => false end.

(** Math.min: starts from +Infinity; a NaN argument makes the result NaN;
    -0 is below +0. *)
Definition min_step (lowest number : float) : float :=
  if PrimFloat.is_nan lowest || PrimFloat.is_nan number then nan
  else if is_neg_zero number && is_pos_zero lowest then number
  else if (number <? lowest)%float then number
  else lowest.

Definition Math_min (args : list float) : float := fold_left min_step args infinity.

(** Math.max: starts from -Infinity; +0 is above -0. *)
Definition max_step (highest number : float) : float :=
  if PrimFloat.is_nan highest || PrimFloat.is_nan number then nan
  else if is_pos_zero number && is_neg_zero highest then number
  else if (highest <? number)%float then number
  else highest.

Definition Math_max (args : list float) : float := fold_left max_step args neg_infinity.

(** *** Set of strings, Array.from, Array.prototype.sort *)

(** A Set keeps its members in insertion order; adding a member it has
    already does nothing. *)
Definition Set_add (set : list string) (v : string) : list string :=
  if decide (v ∈ set) then set else set ++ [v].

(** [sort()] without a comparator orders strings by code units. *)
Definition Array_sort (l : list string) : list string := merge_sort String.le l.

End JS.

(** ** pivot.ts *)
Module Pivot.
Import JS.

(** [PivotData]: an object used as a map from field names to values. *)
Abbreviation PivotData := (gmap string value).

Record PivotConfig := {
  rows : list string;
  columns : list string;
  values : list string;
  aggregation : option string   (* optional in the source *)
}.

Record PivotResult := {
  data : list (list float);
  rowHeaders : list string;
  columnHeaders : list string
}.

(** [item[field]]: the record's own property; without one, the property
    inherited from Object.prototype; without that, undefined. *)
Definition get (item : PivotData) (field : string) : value :=
  match item !! field with
  | Some v => v
  | None => Object_prototype_get field
  end.

Definition getUniqueValues (data : list PivotData) (fields : list string) : list string :=
  let uniqueValues :=
    fold_left
      (fun uniqueValues item =>
         let value := Array_join (map (fun field => get item field) fields) " - " in
         Set_add uniqueValues value)
      data [] in
  Array_sort uniqueValues.

Definition matchesGroup (item : PivotData) (fields : list string) (groupValue : string) : bool :=
  let itemValue := Array_join (map (fun field => get item field) fields) " - " in
  String.eqb itemValue groupValue.

Definition sum_values (values : list float) : float :=
  fold_left (fun sum val => (sum + val)%float) values 0%float.

Definition aggregateValues
    (data : list PivotData) (valueFields : list string) (aggregation : string) : float :=
  if Nat.eqb (length data) 0 then 0%float
  else
    let values :=
      flat_map
        (fun item => map (fun field => or_zero (parseFloat (get item field))) valueFields)
        data in
    if String.eqb aggregation "sum" then sum_values values
    else if String.eqb aggregation "count" then Number_of_nat (length values)
    else if String.eqb aggregation "avg" then (sum_values values / Number_of_nat (length values))%float
    else if String.eqb aggregation "min" then Math_min values
    else if String.eqb aggregation "max" then Math_max values
    else sum_values values.

(** [for (let i = 0; i < n; i++) body]: the bound is not changed by the
    bodies below, so the loop runs [body] at 0, 1, ..., n-1. *)
Definition for_upto {S : Type} (n : nat) (body : nat -> S -> S) (s : S) : S :=
  fold_left (fun s i => body i s) (seq 0 n) s.

(** The filter predicate of one cell.  [rowHeaders[i]] is a string for
    [i] below the length; past it, it would be undefined, which no key
    equals. *)
Definition in_cell (rows columns : list string) (rowHeaders columnHeaders : list string)
    (i j : nat) (item : PivotData) : bool :=
  match rowHeaders !! i, columnHeaders !! j with
  | Some r, Some c => matchesGroup item rows r && matchesGroup item columns c
  | _, _ => false
  end.

Definition createPivotTable (data : list PivotData) (config : PivotConfig) : PivotResult :=
  let rows := config.(rows) in
  let columns := config.(columns) in
  let values := config.(values) in
  let aggregation := default "sum" config.(aggregation) in
  if Nat.eqb (length data) 0 then
    {| data := []; rowHeaders := []; columnHeaders := [] |}
  else
    let rowHeaders := getUniqueValues data rows in
    let columnHeaders := getUniqueValues data columns in
    let pivotData :=
      for_upto (length rowHeaders)
        (fun i pivotData =>
           let row :=
             for_upto (length columnHeaders)
               (fun j row =>
                  let filteredData :=
                    List.filter (in_cell rows columns rowHeaders columnHeaders i j) data in
                  let aggregatedValue := aggregateValues filteredData values aggregation in
                  row ++ [aggregatedValue])
               [] in
           pivotData ++ [row])
        [] in
    {| data := pivotData; rowHeaders := rowHeaders; columnHeaders := columnHeaders |}.

End Pivot.

(** ** pivot.ts with its objects in a store

    The same program with the objects it touches kept in a store: the two
    objects the caller passes ([data] and [config]) and the objects a call
    creates and then mutates (the Set of [getUniqueValues], the array that
    [Array.from] returns and [sort] reorders in place, and the arrays
    [row] and [pivotData] that [push] extends).  Creating an object
    ([new Set()], [Array.from], [[]]) initialises its cell; a mutating
    method updates the cell of its receiver; [forEach], [filter], [map],
    [flatMap], [join] and [reduce] only read. *)
Module Imp.
Import JS Pivot.

Record store := {
  caller_data : list PivotData;
  caller_config : PivotConfig;
  set_uniqueValues : list string;
  arr_sorted : list string;
  arr_row : list float;
  arr_pivotData : list (list float)
}.

Definition M (A : Type) : Type := store → A * store.

#[global] Instance M_ret : MRet M := fun A x s => (x, s).
#[global] Instance M_bind : MBind M :=
  fun A B f m s => let '(x, s') := m s in f x s'.

Definition read_data : M (list PivotData) := fun s => (caller_data s, s).
Definition read_config : M PivotConfig := fun s => (caller_config s, s).

Definition with_uniqueValues (v : list string) (s : store) : store :=
  {| caller_data := caller_data s; caller_config := caller_config s;
     set_uniqueValues := v; arr_sorted := arr_sorted s;
     arr_row := arr_row s; arr_pivotData := arr_pivotData s |}.

Definition with_sorted (v : list string) (s : store) : store :=
  {| caller_data := caller_data s; caller_config := caller_config s;
     set_uniqueValues := set_uniqueValues s; arr_sorted := v;
     arr_row := arr_row s; arr_pivotData := arr_pivotData s |}.

Definition with_row (v : list float) (s : store) : store :=
  {| caller_data := caller_data s; caller_config := caller_config s;
     set_uniqueValues := set_uniqueValues s; arr_sorted := arr_sorted s;
     arr_row := v; arr_pivotData := arr_pivotData s |}.

Definition with_pivotData (v : list (list float)) (s : store) : store :=
  {| caller_data := caller_data s; caller_config := caller_config s;
     set_uniqueValues := set_uniqueValues s; arr_sorted := arr_sorted s;
     arr_row := arr_row s; arr_pivotData := v |}.

(** [new Set<string>()] and [uniqueValues.add(value)]. *)
Definition new_Set : M unit := fun s => (tt, with_uniqueValues [] s).
Definition add (value : string) : M unit :=
  fun s => (tt, with_uniqueValues (Set_add (set_uniqueValues s) value) s).

(** [Array.from(uniqueValues)] creates the array; [.sort()] reorders it in
    place and returns it. *)
Definition Array_from_uniqueValues : M unit :=
  fun s => (tt, with_sorted (set_uniqueValues s) s).
Definition sort : M (list string) :=
  fun s => let sorted := Array_sort (arr_sorted s) in (sorted, with_sorted sorted s).

(** [const row = []], [row.push(x)], and the same for [pivotData]. *)
Definition new_row : M unit := fun s => (tt, with_row [] s).
Definition push_row (x : float) : M unit := fun s => (tt, with_row (arr_row s ++ [x]) s).
Definition read_row : M (list float) := fun s => (arr_row s, s).
Definition new_pivotData : M unit := fun s => (tt, with_pivotData [] s).
Definition push_pivotData (row : list float) : M unit :=
  fun s => (tt, with_pivotData (arr_pivotData s ++ [row]) s).
Definition read_pivotData : M (list (list float)) := fun s => (arr_pivotData s, s).

(** [l.forEach(body)], and a counting [for] loop. *)
Fixpoint forEach {A : Type} (l : list A) (body : A → M unit) : M unit :=
  match l with
  | [] => mret tt
  | x :: l' => _ ← body x; forEach l' body
  end.

Definition for_upto (n : nat) (body : nat → M unit) : M unit := forEach (seq 0 n) body.

Definition getUniqueValues (fields : list string) : M (list string) :=
  _ ← new_Set;
  data ← read_data;
  _ ← forEach data (fun item =>
         let value := Array_join (map (fun field => get item field) fields) " - " in
         add value);
  _ ← Array_from_uniqueValues;
  sort.

Definition createPivotTable : M PivotResult :=
  config ← read_config;
  let rows := config.(rows) in
  let columns := config.(columns) in
  let values := config.(values) in
  let aggregation := default "sum" config.(aggregation) in
  data ← read_data;
  if Nat.eqb (length data) 0 then
    mret {| data := []; rowHeaders := []; columnHeaders := [] |}
  else
    rowHeaders ← getUniqueValues rows;
    columnHeaders ← getUniqueValues columns;
    _ ← new_pivotData;
    _ ← for_upto (length rowHeaders) (fun i =>
           _ ← new_row;
           _ ← for_upto (length columnHeaders) (fun j =>
                  data ← read_data;
                  let filteredData :=
                    List.filter (in_cell rows columns rowHeaders columnHeaders i j) data in
                  let aggregatedValue := aggregateValues filteredData values aggregation in
                  push_row aggregatedValue);
           row ← read_row;
           push_pivotData row);
    pivotData ← read_pivotData;
    mret {| data := pivotData; rowHeaders := rowHeaders; columnHeaders := columnHeaders |}.

(** [post m s Q]: running [m] from [s] ends with a result and a store that
    satisfy [Q]. *)
Definition post {A : Type} (m : M A) (s : store) (Q : A → store → Prop) : Prop :=
  Q (m s).1 (m s).2.

(** The store agrees with [s0] on the caller's objects. *)
Definition same_input (s0 s : store) : Prop :=
  caller_data s = caller_data s0 ∧ caller_config s = caller_config s0.

End Imp.

(** ** index.ts: records from board items

    [fetchPivotData] obtains the items of a board over the network and
    turns each one into a record with the same arrow function at every
    place it builds its result; that function and the built-ins it calls
    ([Number] on a string, [isNaN]) are modelled here. *)
Module Index.
Import JS Pivot.

(** *** Number(string): StringToNumber *)

Definition trim_end (s : string) : string := String.rev (trim_start (String.rev s)).
Definition trim (s : string) : string := trim_end (trim_start s).

Definition radix_digit_of (radix : Z) (c : ascii) : option Z :=
  let n := Z.of_N (N_of_ascii c) in
  let d := if (48 <=? n) && (n <=? 57) then n - 48
           else if (97 <=? n) && (n <=? 102) then n - 87
           else if (65 <=? n) && (n <=? 70) then n - 55
           else radix in
  if d <? radix then Some d else None.

Fixpoint read_radix_digits (radix : Z) (s : string) (acc cnt : Z) : Z * Z * string :=
  match s with
  | String c s' =>
      match radix_digit_of radix c with
      | Some d => read_radix_digits radix s' (radix * acc + d) (cnt + 1)
      | None => (acc, cnt, s)
      end
  | EmptyString => (acc, cnt, s)
  end.

(** NonDecimalIntegerLiteral: 0x, 0o or 0b (either case) and then digits
    of that radix up to the end; [None] when the text has no such prefix. *)
Definition non_decimal (s : string) : option float :=
  match s with
  | String "0" (String c r) =>
      let radix :=
        if Ascii.eqb c "x" || Ascii.eqb c "X" then Some 16
        else if Ascii.eqb c "o" || Ascii.eqb c "O" then Some 8
        else if Ascii.eqb c "b" || Ascii.eqb c "B" then Some 2
        else None in
      match radix with
      | Some radix =>
          let '(v, n, rest) := read_radix_digits radix r 0 0 in
          if (n =? 0) || negb (String.eqb rest "") then Some nan
          else Some (decimal_to_float false v 0)
      | None => None
      end
  | _ => None
  end.

(** StrUnsignedDecimalLiteral, which has to span the whole text. *)
Definition unsigned_decimal (neg : bool) (s : string) : float :=
  if String.eqb s "Infinity" then (if neg then neg_infinity else infinity)
  else
    let '(ip, ni, r1) := read_digits s 0 0 in
    let '(m, nf, r2) :=
      match r1 with
      | String "." r => read_digits r ip 0
      | _ => (ip, 0, r1)
      end in
    if ni + nf =? 0 then nan
    else
      match r2 with
      | EmptyString => decimal_to_float neg m (- nf)
      | String c r3 =>
          if Ascii.eqb c "e" || Ascii.eqb c "E" then
            let '(sg, r4) :=
              match r3 with
              | String "+" r' => (1, r')
              | String "-" r' => (-1, r')
              | _ => (1, r3)
              end in
            let '(ev, ne, r5) := read_digits r4 0 0 in
            if (ne =? 0) || negb (String.eqb r5 "") then nan
            else decimal_to_float neg m (sg * ev - nf)
          else nan
      end.

(** [Number(text)] on a string: white space is dropped at both ends; the
    empty text is +0; a text that is no numeric literal is NaN. *)
Definition Number (text : string) : float :=
  let t := trim text in
  if String.eqb t "" then 0%float
  else
    match non_decimal t with
    | Some x => x
    | None =>
        match t with
        | String "+" r => unsigned_decimal false r
        | String "-" r => unsigned_decimal true r
        | _ => unsigned_decimal false t
        end
    end.

Definition isNaN (x : float) : bool := PrimFloat.is_nan x.

(** *** The items of a board and their records *)

Record column_value := {
  title : string;
  text : string;
  value : string
}.

Record MondayItem := {
  name : string;
  column_values : list column_value
}.

(** [row[key] = v] for a text or a number [v], on a record: the own
    property [key] is created or overwritten.  The key "__proto__" is the
    exception: the assignment calls the setter that the record inherits
    from Object.prototype, which ignores a value that is neither an object
    nor null, and the record is left as it was. *)
Definition assign (row : PivotData) (key : string) (v : JS.value) : PivotData :=
  if String.eqb key "__proto__" then row else <[ key := v ]> row.

(** [(item) => { const row = { name: item.name };
                 item.column_values.forEach(col => { row[col.title] = ... });
                 return row; }] *)
Definition itemToRow (item : MondayItem) : PivotData :=
  let row : PivotData := {[ "name" := Str item.(name) ]} in
  fold_left
    (fun (row : PivotData) col =>
       assign row col.(title)
         (if isNaN (Number col.(text)) then Str col.(text) else Num (Number col.(text))))
    item.(column_values) row.

(** [items.map(item => ...)] *)
Definition itemsToData (items : list MondayItem) : list PivotData := map itemToRow items.

End Index.

(** ** PivotTable.tsx: the table component

    The component calls [createPivotTable] and returns a tree of elements.
    An element is modelled by its tag, its [key] and [className] when it
    has them, and its children; [formatNumber] turns a cell into text with
    [Number.isInteger], [toString] and [toFixed(2)]. *)
Module View.
Import JS Pivot.

(** Number.isInteger: a finite number without fraction. *)
Definition Number_isInteger (x : float) : bool :=
  match Prim2SF x with
  | S754_zero _ => true
  | S754_finite _ m e => (0 <=? e) || (Z.pos m mod 2 ^ (- e) =? 0)
  | _ => false
  end.

(** The digits of [n / 10^f] with [f] fraction digits: the decimal text
    of [n], padded with zeros on the left to [f + 1] digits, with a point
    before the last [f] of them. *)
Definition fixed_digits (n : Z) (f : nat) : string :=
  let m : string := pretty n in
  if Nat.eqb f 0 then m
  else
    let m :=
      if (String.length m <=? f)%nat
      then zeros (Z.of_nat (f + 1 - String.length m)) +:+ m
      else m in
    let k := String.length m in
    String.substring 0 (k - f) m +:+ "." +:+ String.substring (k - f) f m.

(** Number.prototype.toFixed: a number that is not finite gives its
    toString; one of magnitude 10^21 or more too; else the nearest
    multiple of [10^-f] is written out, the larger one on a tie. *)
Definition Number_toFixed (x : float) (f : nat) : string :=
  match Prim2SF x with
  | S754_nan | S754_infinity _ => Number_toString x
  | S754_zero _ => fixed_digits 0 f
  | S754_finite neg m e =>
      let num := Z.pos m * 2 ^ Z.max e 0 in
      let den := 2 ^ Z.max (- e) 0 in
      (if neg then "-" else "") +:+
      (if 10 ^ 21 * den <=? num then Number_toString (abs x)
       else fixed_digits ((2 * num * 10 ^ Z.of_nat f + den) / (2 * den)) f)
  end.

Definition formatNumber (value : float) : string :=
  if (value =? 0)%float then "0"
  else if Number_isInteger value then Number_toString value
  else Number_toFixed value 2.

(** A text child, or an element with its children. *)
#[local] Unset Elimination Schemes.
Inductive node :=
| Text (s : string)
| Elem (tag : string) (key : option nat) (className : option string) (children : list node).

#[local] Set Elimination Schemes.

(** [{rowHeaders[rowIndex]}]: past the end of the array the child is
    undefined and nothing is rendered. *)
Definition child_at (l : list string) (i : nat) : list node :=
  match l !! i with
  | Some s => [Text s]
  | None => []
  end.

Definition PivotTable (data : list PivotData) (config : PivotConfig)
    (className : option string) : node :=
  let pivotResult := createPivotTable data config in
  let pivotData := pivotResult.(Pivot.data) in
  let rowHeaders := pivotResult.(rowHeaders) in
  let columnHeaders := pivotResult.(columnHeaders) in
  if Nat.eqb (length pivotData) 0 then
    Elem "div" None (Some ("pivot-table-empty " +:+ default "" className))
      [ Elem "p" None None [Text "No data to display"] ]
  else
    Elem "div" None (Some ("pivot-table-container " +:+ default "" className))
      [ Elem "table" None (Some "pivot-table")
          [ Elem "thead" None None
              [ Elem "tr" None None
                  (Elem "th" None (Some "pivot-table-header-corner")
                     [Text (Array_join (map Str config.(rows)) " / ")]
                   :: imap (fun index header =>
                              Elem "th" (Some index) (Some "pivot-table-column-header")
                                [Text header])
                        columnHeaders) ];
            Elem "tbody" None None
              (imap (fun rowIndex row =>
                       Elem "tr" (Some rowIndex) None
                         (Elem "th" None (Some "pivot-table-row-header")
                            (child_at rowHeaders rowIndex)
                          :: imap (fun cellIndex cell =>
                                     Elem "td" (Some cellIndex) (Some "pivot-table-cell")
                                       [Text (formatNumber cell)])
                               row))
                 pivotData) ] ].

End View.

Import JS Pivot.

(** ** The vocabulary of the specification *)

(** The text one field contributes to a group key: nothing when reading
    the field gives undefined or null, else the ToString of what it
    gives. *)
Definition field_text (item : PivotData) (field : string) : string :=
  match get item field with
  | Undefined | Null => ""
  | v => ToString v
  end.

(** The group key of a record on an axis. *)
Definition groupKey (fields : list string) (item : PivotData) : string :=
  String.concat " - " (map (field_text item) fields).

(** The group key as the specification words it: String(value) of every
    field, under which a missing field reads "undefined". *)
Definition field_text_String (item : PivotData) (field : string) : string :=
  match item !! field with
  | None => "undefined"
  | Some v => ToString v
  end.

Definition groupKey_String (fields : list string) (item : PivotData) : string :=
  String.concat " - " (map (field_text_String item) fields).

(** The records of one cell, in input order. *)
Definition subset (config : PivotConfig) (r c : string) (records : list PivotData) : list PivotData :=
  List.filter
    (fun item => String.eqb (groupKey config.(rows) item) r
                 && String.eqb (groupKey config.(columns) item) c)
    records.

(** Numeric coercion of a field value. *)
Definition coerce (v : value) : float := or_zero (parseFloat v).

(** The value list of a set of records: record-major, field-minor. *)
Definition valueList (valueFields : list string) (records : list PivotData) : list float :=
  concat (map (fun item => map (fun field => coerce (get item field)) valueFields) records).

Inductive kind := Sum | Count | Avg | Min | Max.

Definition kind_name (k : kind) : string :=
  match k with
  | Sum => "sum" | Count => "count" | Avg => "avg" | Min => "min" | Max => "max"
  end.

Definition reduce (k : kind) (vs : list float) : float :=
  match k with
  | Sum => fold_left PrimFloat.add vs 0%float
  | Count => Number_of_nat (length vs)
  | Avg => (fold_left PrimFloat.add vs 0%float / Number_of_nat (length vs))%float
  | Min => Math_min vs
  | Max => Math_max vs
  end.

(** Cell [(i, j)] of a matrix. *)
Definition cell (m : list (list float)) (i j : nat) : option float :=
  m !! i ≫= fun row => row !! j.

Definition with_aggregation (config : PivotConfig) (a : option string) : PivotConfig :=
  {| rows := config.(rows); columns := config.(columns);
     values := config.(values); aggregation := a |}.

(** Example 1 of the specification. *)
Definition ex1 : list PivotData :=
  [ {[ "s" := Str "A"; "o" := Str "X"; "b" := Num 10 ]};
    {[ "s" := Str "A"; "o" := Str "Y"; "b" := Num 20 ]};
    {[ "s" := Str "B"; "o" := Str "X"; "b" := Num 5 ]} ].

Definition cfg1 (a : option string) : PivotConfig :=
  {| rows := ["s"]; columns := ["o"]; values := ["b"]; aggregation := a |}.

(** Two stores holding Example 1 for the caller; the second one also holds
    what earlier calls left in the other cells. *)
Definition store1 : Imp.store :=
  {| Imp.caller_data := ex1; Imp.caller_config := cfg1 (Some "avg");
     Imp.set_uniqueValues := []; Imp.arr_sorted := [];
     Imp.arr_row := []; Imp.arr_pivotData := [] |}.

Definition store2 : Imp.store :=
  {| Imp.caller_data := ex1; Imp.caller_config := cfg1 (Some "avg");
     Imp.set_uniqueValues := ["Z"]; Imp.arr_sorted := ["Q"; "P"];
     Imp.arr_row := [7%float]; Imp.arr_pivotData := [[1%float]; []] |}.

(** What the engine computes for the group pair [(r, c)]. *)
Definition cell_value (config : PivotConfig) (records : list PivotData) (r c : string) : float :=
  aggregateValues (subset config r c records) config.(values)
    (default "sum" config.(aggregation)).

Definition known_kinds : list string := ["sum"; "count"; "avg"; "min"; "max"].

(** The lengths an array can have. *)
Definition array_length (n : nat) : Prop := Z.of_nat n < 2 ^ 32.

(** The mathematical value of a number that is an integer. *)
Definition Number_to_Z (x : float) : option Z :=
  match Prim2SF x with
  | S754_zero _ => Some 0
  | S754_finite neg m e =>
      if 0 <=? e then Some (cond_Zopp neg (Z.pos m * 2 ^ e))
      else if Z.pos m mod 2 ^ (- e) =? 0 then Some (cond_Zopp neg (Z.pos m / 2 ^ (- e)))
      else None
  | _ => None
  end.

(** The exact sum of a list of integer-valued numbers. *)
Fixpoint exact_sum (l : list float) : option Z :=
  match l with
  | [] => Some 0
  | x :: l' =>
      match Number_to_Z x, exact_sum l' with
      | Some a, Some b => Some (a + b)
      | _, _ => None
      end
  end.

(** Numbers that are not NaN. *)
Definition is_number (x : float) : Prop := PrimFloat.is_nan x = false.

(** A number other than -0: what [or_zero] returns. *)
Definition clean (x : float) : Prop := is_number x ∧ is_neg_zero x = false.

(** [v] is a member of [vs] that is at most (at least) every member. *)
Definition is_minimum (v : float) (vs : list float) : Prop :=
  v ∈ vs ∧ ∀ x, x ∈ vs → (v <=? x)%float = true.

Definition is_maximum (v : float) (vs : list float) : Prop :=
  v ∈ vs ∧ ∀ x, x ∈ vs → (x <=? v)%float = true.

(** What a record holds for a board column with the given text. *)
Definition stored_value (text : string) : value :=
  if Index.isNaN (Index.Number text) then Str text else Num (Index.Number text).

(** A text of white space only (the empty text included). *)
Fixpoint blank (text : string) : bool :=
  match text with
  | EmptyString => true
  | String c text' => is_ws c && blank text'
  end.

(** The column titles under which an item's record stores a value. *)
Definition stored_titles (item : Index.MondayItem) : list string :=
  List.filter (fun t => negb (String.eqb t "__proto__"))
    (map Index.title item.(Index.column_values)).

(** An item with a repeated column title and an empty text. *)
Definition item1 : Index.MondayItem :=
  {| Index.name := "Project A";
     Index.column_values :=
       [ {| Index.title := "status"; Index.text := "Done"; Index.value := "" |};
         {| Index.title := "budget"; Index.text := " 100.50 "; Index.value := "" |};
         {| Index.title := "note"; Index.text := ""; Index.value := "" |};
         {| Index.title := "status"; Index.text := "Later"; Index.value := "" |} ] |}.

(** The element shown when there is nothing to display. *)
Definition empty_view (className : option string) : View.node :=
  View.Elem "div" None (Some ("pivot-table-empty " +:+ default "" className))
    [ View.Elem "p" None None [View.Text "No data to display"] ].

(** The header row: the row field names joined by " / ", then one cell
    per column header. *)
Definition header_row (config : PivotConfig) (columnHeaders : list string) : View.node :=
  View.Elem "tr" None None
    (View.Elem "th" None (Some "pivot-table-header-corner")
       [View.Text (String.concat " / " config.(rows))]
     :: imap (fun index header =>
                View.Elem "th" (Some index) (Some "pivot-table-column-header")
                  [View.Text header])
          columnHeaders).

(** The body row of row header [r]: the header, then the formatted
    aggregate of each column group. *)
Definition body_row (config : PivotConfig) (records : list PivotData)
    (columnHeaders : list string) (rowIndex : nat) (r : string) : View.node :=
  View.Elem "tr" (Some rowIndex) None
    (View.Elem "th" None (Some "pivot-table-row-header") [View.Text r]
     :: imap (fun cellIndex c =>
                View.Elem "td" (Some cellIndex) (Some "pivot-table-cell")
                  [View.Text (View.formatNumber (cell_value config records r c))])
          columnHeaders).

(** Every text of a list, each preceded by the separator. *)
Fixpoint sep_all (sep : string) (l : list string) : string :=
  match l with
  | [] => ""
  | t :: l' => sep +:+ t +:+ sep_all sep l'
  end.

(** ** Examples *)

(** The built-ins on inputs whose JavaScript results are known. *)
Example parseFloat_examples :
  parseFloat (Str "  12.5abc") = 12.5%float
  ∧ parseFloat (Str "-.5e1") = (-5)%float
  ∧ parseFloat (Str "1e") = 1%float
  ∧ parseFloat (Str "9007199254740993") = 9007199254740992%float
  ∧ parseFloat (Str "1e400") = infinity
  ∧ parseFloat (Str "-Infinityx") = neg_infinity
  ∧ parseFloat (Num 10) = 10%float
  ∧ map (fun v => PrimFloat.is_nan (parseFloat v))
      [Str "n/a"; Str ""; Str "."; Str "e5"; Undefined; Null; Bool true]
    = [true; true; true; true; true; true; true].
Proof. repeat split; vm_compute; reflexivity. Qed.

Example Number_toString_examples :
  map (fun t => Number_toString (parseFloat_string t))
    ["0.1"; "1e21"; "123.456"; "0.0000001"; "100"; "5e-324"; "0.000001";
     "1.7976931348623157e308"; "1e23"; "123456789012345680000"; "-1.5";
     "0.30000000000000004"; "-0"; "25."]
  = ["0.1"; "1e+21"; "123.456"; "1e-7"; "100"; "5e-324"; "0.000001";
     "1.7976931348623157e+308"; "1e+23"; "123456789012345680000"; "-1.5";
     "0.30000000000000004"; "0"; "25"].
Proof. vm_compute. reflexivity. Qed.

Example Array_join_examples :
  Array_join [Str "A"; Num 2; Bool false] " - " = "A - 2 - false"
  ∧ Array_join [Undefined; Str "x"; Null] "-" = "-x-"
  ∧ Array_join [] " - " = ""
  ∧ Array_sort ["b"; "B"; "a"; "10"; "9"; ""] = [""; "10"; "9"; "B"; "a"; "b"].
Proof. repeat split; vm_compute; reflexivity. Qed.

(** Properties inherited from Object.prototype: a record without its own
    "constructor" is keyed by the text of the function Object on that
    field; a board column titled "__proto__" is not stored, and its
    field reads as Object.prototype. *)
Example inherited_property_examples :
  getUniqueValues [ {[ "a" := Str "x" ]} ] ["constructor"]
    = ["function Object() { [native code] }"]
  ∧ getUniqueValues [ {[ "a" := Str "x" ]} ] ["toString"; "a"; "b"]
    = ["function toString() { [native code] } - x - "]
  ∧ aggregateValues [ {[ "a" := Str "x" ]} ] ["valueOf"; "__proto__"] "sum" = 0%float
  ∧ dom (Index.itemToRow
           {| Index.name := "P";
              Index.column_values :=
                [ {| Index.title := "__proto__"; Index.text := "5"; Index.value := "" |};
                  {| Index.title := "constructor"; Index.text := "7"; Index.value := "" |} ] |})
    = {[ "name"; "constructor" ]}
  ∧ getUniqueValues
      [ Index.itemToRow
          {| Index.name := "P";
             Index.column_values :=
               [ {| Index.title := "__proto__"; Index.text := "5"; Index.value := "" |};
                 {| Index.title := "constructor"; Index.text := "7"; Index.value := "" |} ] |} ]
      ["__proto__"; "constructor"]
    = ["[object Object] - 7"].
Proof. split_and!; vm_compute; reflexivity. Qed.

(** Examples 1 to 5 of the specification. *)
Example spec_example_1 :
  createPivotTable ex1 (cfg1 (Some "sum"))
  = {| data := [[10%float; 20%float]; [5%float; 0%float]];
       rowHeaders := ["A"; "B"]; columnHeaders := ["X"; "Y"] |}.
Proof. vm_compute. reflexivity. Qed.

Example spec_example_2 :
  (createPivotTable ex1 (cfg1 (Some "count"))).(data)
  = [[1%float; 1%float]; [1%float; 0%float]].
Proof. vm_compute. reflexivity. Qed.

Example spec_example_3 :
  (createPivotTable ex1 (cfg1 (Some "avg"))).(data)
  = [[10%float; 20%float]; [5%float; 0%float]].
Proof. vm_compute. reflexivity. Qed.

Example spec_example_4 :
  (createPivotTable [ {[ "s" := Str "A"; "o" := Str "X" ]} ]
     {| rows := ["s"; "o"]; columns := ["o"]; values := ["b"]; aggregation := None |})
    .(rowHeaders) = ["A - X"].
Proof. vm_compute. reflexivity. Qed.

Example spec_example_5 :
  (createPivotTable
     [ {[ "s" := Str "A"; "o" := Str "X"; "b" := Str "n/a" ]};
       {[ "s" := Str "A"; "o" := Str "X"; "b" := Num 4 ]} ]
     (cfg1 (Some "avg"))).(data) = [[2%float]].
Proof. vm_compute. reflexivity. Qed.

(** ** Strings *)

Lemma str_app_nil_r (s : string) : s +:+ "" = s.
Proof.
  induction s as [|a s IH]; [done|].
  change (String a (s +:+ "") = String a s). by rewrite IH.
Qed.

Lemma str_app_assoc (s1 s2 s3 : string) : (s1 +:+ s2) +:+ s3 = s1 +:+ (s2 +:+ s3).
Proof.
  induction s1 as [|a s1 IH]; [done|].
  change (String a ((s1 +:+ s2) +:+ s3) = String a (s1 +:+ (s2 +:+ s3))).
  by rewrite IH.
Qed.

Lemma String_eqb_true (s t : string) : String.eqb s t = true ↔ s = t.
Proof. apply String.eqb_eq. Qed.

Lemma ltb_of_le_ne (a b : string) : String.le a b → a ≠ b → String.ltb a b = true.
Proof.
  unfold String.le, String.leb, String.ltb. intros Hle Hne.
  destruct (a ?= b)%string eqn:E; try done.
  by apply String.compare_eq_iff in E.
Qed.

(** ** Lengths as numbers *)

Lemma digits2_pos_bounds (p : positive) :
  2 ^ (Z.pos (digits2_pos p) - 1) <= Z.pos p < 2 ^ Z.pos (digits2_pos p).
Proof.
  induction p as [p IH|p IH|]; simpl digits2_pos.
  - rewrite Pos2Z.inj_succ. replace (Z.succ (Z.pos (digits2_pos p)) - 1) with (Z.succ (Z.pos (digits2_pos p) - 1)) by lia.
    rewrite !Z.pow_succ_r by lia. lia.
  - rewrite Pos2Z.inj_succ. replace (Z.succ (Z.pos (digits2_pos p)) - 1) with (Z.succ (Z.pos (digits2_pos p) - 1)) by lia.
    rewrite !Z.pow_succ_r by lia. lia.
  - simpl. lia.
Qed.

Lemma iter_xO_value (p k : positive) : Z.pos (Pos.iter xO p k) = Z.pos p * 2 ^ Z.pos k.
Proof.
  induction k as [|k IH] using Pos.peano_ind.
  - simpl. lia.
  - rewrite Pos.iter_succ, Pos2Z.inj_succ, Z.pow_succ_r by lia.
    rewrite Pos2Z.inj_xO, IH. lia.
Qed.

Lemma iter_xO_digits (p k : positive) :
  digits2_pos (Pos.iter xO p k) = (digits2_pos p + k)%positive.
Proof.
  induction k as [|k IH] using Pos.peano_ind.
  - simpl. lia.
  - rewrite Pos.iter_succ. simpl. rewrite IH. lia.
Qed.

Lemma binary_round_aux_canonical (s : bool) (m : positive) (e : Z) :
  bounded prec emax m e = true →
  binary_round_aux prec emax s (Z.pos m) e loc_Exact = S754_finite s m e.
Proof.
  unfold bounded, canonical_mantissa. intros [Hc He]%andb_true_iff.
  apply Z.eqb_eq in Hc.
  unfold binary_round_aux, shr_fexp. simpl Zdigits2. rewrite Hc, Z.sub_diag. simpl.
  rewrite Hc, Z.sub_diag. simpl. by rewrite He.
Qed.

Lemma fexp_binary64 (e : Z) : fexp prec emax e = Z.max (e - 53) (-1074).
Proof. reflexivity. Qed.

(** Aligning an integer below 2^53 gives a canonical mantissa of the same
    value. *)
Lemma shl_align_canonical (p : positive) :
  Z.pos (digits2_pos p) <= 53 →
  ∃ mz ez,
    shl_align p 0 (fexp prec emax (Z.pos (digits2_pos p) + 0)) = (mz, ez)
    ∧ bounded prec emax mz ez = true
    ∧ ez <= 0
    ∧ Z.pos mz = Z.pos p * 2 ^ (- ez).
Proof.
  intros Hd. rewrite fexp_binary64. unfold shl_align.
  assert (1 <= Z.pos (digits2_pos p)) as Hd1 by lia.
  replace (Z.max (Z.pos (digits2_pos p) + 0 - 53) (-1074) - 0)
    with (Z.pos (digits2_pos p) - 53) by lia.
  replace (Z.max (Z.pos (digits2_pos p) + 0 - 53) (-1074))
    with (Z.pos (digits2_pos p) - 53) by lia.
  destruct (Z.pos (digits2_pos p) - 53) as [|k|k] eqn:E; [| lia |].
  - exists p, 0. split_and!; [done| |lia|simpl; lia].
    unfold bounded, canonical_mantissa. rewrite fexp_binary64.
    apply andb_true_iff. split; [apply Z.eqb_eq; lia|done].
  - exists (Pos.iter xO p k), (Z.neg k). split_and!; [done| |lia|].
    + unfold bounded, canonical_mantissa. rewrite fexp_binary64, iter_xO_digits.
      apply andb_true_iff. split; [apply Z.eqb_eq; lia|].
      apply Z.leb_le. unfold emax, prec. lia.
    + rewrite iter_xO_value. done.
Qed.

Lemma Number_of_nat_exact (n : nat) :
  Z.of_nat n < 2 ^ 53 → Number_to_Z (Number_of_nat n) = Some (Z.of_nat n).
Proof.
  intros Hn. unfold Number_of_nat, Number_to_Z.
  destruct (Z.of_nat n) as [|p|p] eqn:E; [| |lia].
  - simpl binary_normalize. by rewrite Prim2SF_SF2Prim.
  - simpl binary_normalize. unfold binary_round.
    pose proof (digits2_pos_bounds p) as [Hlo Hhi].
    assert (Z.pos (digits2_pos p) <= 53) as Hd.
    { destruct (Z_le_gt_dec (Z.pos (digits2_pos p)) 53) as [|Hgt]; [done|].
      assert (2 ^ 53 <= 2 ^ (Z.pos (digits2_pos p) - 1)); [apply Z.pow_le_mono_r; lia|lia]. }
    destruct (shl_align_canonical p Hd) as (mz & ez & -> & Hb & Hez & Hv).
    rewrite (binary_round_aux_canonical _ _ _ Hb).
    rewrite Prim2SF_SF2Prim by exact Hb.
    assert (0 < 2 ^ (- ez)) by (apply Z.pow_pos_nonneg; lia).
    destruct (0 <=? ez) eqn:Hz.
    + apply Z.leb_le in Hz. assert (ez = 0) as -> by lia.
      simpl in *. f_equal. lia.
    + rewrite Hv, Z.mod_mul, Z.eqb_refl, Z.div_mul by lia. done.
Qed.

(** ** Loops and joins *)

Lemma for_upto_push {A} (f : nat → A) (n : nat) (init : list A) :
  for_upto n (fun i acc => acc ++ [f i]) init = init ++ map f (seq 0 n).
Proof.
  unfold for_upto. generalize 0%nat. revert init.
  induction n as [|n IH]; intros init k; simpl.
  - by rewrite app_nil_r.
  - rewrite IH. by rewrite <- app_assoc.
Qed.

Lemma join_from_sep_all sep R l :
  join_from sep R false l = R +:+ sep_all sep (map join_next l).
Proof.
  revert R. induction l as [|v l IH]; intros R; simpl.
  - by rewrite str_app_nil_r.
  - rewrite IH. by rewrite !str_app_assoc.
Qed.

Lemma concat_sep_all sep t l : String.concat sep (t :: l) = t +:+ sep_all sep l.
Proof.
  revert t. induction l as [|u l IH]; intros t.
  - simpl. by rewrite str_app_nil_r.
  - change (String.concat sep (t :: u :: l)) with (t +:+ sep +:+ String.concat sep (u :: l)).
    by rewrite IH.
Qed.

(** Array.prototype.join is the separator-joined concatenation of what
    each element contributes. *)
Lemma Array_join_concat l sep :
  Array_join l sep = String.concat sep (map join_next l).
Proof.
  destruct l as [|v l]; [done|].
  unfold Array_join. simpl join_from.
  rewrite join_from_sep_all. simpl map. by rewrite concat_sep_all.
Qed.

Lemma join_next_get item field : join_next (get item field) = field_text item field.
Proof. unfold join_next, field_text. by destruct (get item field). Qed.

Lemma method_name_None (methods : list (string * string)) (field : string) :
  field ∉ map fst methods → method_name methods field = None.
Proof.
  induction methods as [|[property name] methods IH]; simpl; [done|].
  intros Hnot. destruct (String.eqb_spec field property) as [->|Hne].
  - exfalso. apply Hnot. apply list_elem_of_here.
  - apply IH. intros Hin. apply Hnot. by apply list_elem_of_further.
Qed.

(** A name that is no property of Object.prototype reads as undefined. *)
Lemma Object_prototype_get_other (field : string) :
  field ∉ Object_prototype_names → Object_prototype_get field = Undefined.
Proof.
  unfold Object_prototype_names, Object_prototype_get. intros Hnot.
  destruct (String.eqb_spec field "__proto__") as [->|Hne].
  - exfalso. apply Hnot. apply list_elem_of_here.
  - rewrite method_name_None; [done|].
    intros Hin. apply Hnot. by apply list_elem_of_further.
Qed.

(** A property of Object.prototype is neither undefined nor null, and it
    does not parse as a number. *)
Lemma Object_prototype_get_inherited (field : string) :
  field ∈ Object_prototype_names →
  join_next (Object_prototype_get field) = ToString (Object_prototype_get field)
  ∧ PrimFloat.is_nan (parseFloat (Object_prototype_get field)) = true.
Proof.
  unfold Object_prototype_names, Object_prototype_methods. simpl map. intros Hin.
  repeat (apply elem_of_cons in Hin as [->|Hin]; [split; vm_compute; reflexivity|]).
  by apply elem_of_nil in Hin.
Qed.

Lemma parseFloat_Object_prototype (field : string) :
  PrimFloat.is_nan (parseFloat (Object_prototype_get field)) = true.
Proof.
  destruct (decide (field ∈ Object_prototype_names)) as [Hin|Hnot].
  - by apply Object_prototype_get_inherited.
  - by rewrite Object_prototype_get_other.
Qed.

Lemma get_own (item : PivotData) (field : string) (v : value) :
  item !! field = Some v → get item field = v.
Proof. unfold get. by intros ->. Qed.

Lemma field_text_own (item : PivotData) (field : string) (v : value) :
  item !! field = Some v → field_text item field = join_next v.
Proof. intros H. by rewrite <- join_next_get, (get_own _ _ _ H). Qed.

Lemma field_text_missing (item : PivotData) (field : string) :
  item !! field = None →
  field_text item field
  = if decide (field ∈ Object_prototype_names)
    then ToString (Object_prototype_get field) else "".
Proof.
  intros Hnone. rewrite <- join_next_get. unfold get. rewrite Hnone.
  destruct (decide (field ∈ Object_prototype_names)) as [Hin|Hnot].
  - by apply Object_prototype_get_inherited.
  - by rewrite Object_prototype_get_other.
Qed.

(** The key expression that [getUniqueValues] and [matchesGroup] share. *)
Lemma key_expression item fields :
  Array_join (map (fun field => get item field) fields) " - " = groupKey fields item.
Proof.
  rewrite Array_join_concat. unfold groupKey. rewrite map_map.
  f_equal. apply map_ext. intros. apply join_next_get.
Qed.

Lemma matchesGroup_key item fields g :
  matchesGroup item fields g = String.eqb (groupKey fields item) g.
Proof. unfold matchesGroup. by rewrite key_expression. Qed.

(** ** The set of keys and its sorting *)

Lemma fold_Set_add_spec (l acc : list string) :
  NoDup acc →
  NoDup (fold_left Set_add l acc) ∧
  ∀ x, x ∈ fold_left Set_add l acc ↔ x ∈ acc ∨ x ∈ l.
Proof.
  revert acc. induction l as [|a l IH]; intros acc Hnd; simpl.
  - split; [done|]. intros x. rewrite elem_of_nil. tauto.
  - assert (NoDup (Set_add acc a)) as Hnd'.
    { unfold Set_add. destruct (decide (a ∈ acc)); [done|].
      apply NoDup_app. split_and!; [done| |apply NoDup_singleton].
      intros x Hx ->%list_elem_of_singleton. done. }
    destruct (IH _ Hnd') as [H1 H2]. split; [done|].
    intros x. rewrite H2, elem_of_cons. unfold Set_add.
    destruct (decide (a ∈ acc)) as [Ha|Ha].
    + split; [tauto|]. intros [?|[->|?]]; tauto.
    + rewrite elem_of_app, list_elem_of_singleton. tauto.
Qed.

Lemma getUniqueValues_fold data fields :
  getUniqueValues data fields
  = Array_sort (fold_left Set_add (map (groupKey fields) data) []).
Proof.
  unfold getUniqueValues. f_equal.
  generalize (@nil string). induction data as [|item data IH]; intros acc; simpl; [done|].
  by rewrite key_expression, IH.
Qed.

Lemma getUniqueValues_NoDup data fields : NoDup (getUniqueValues data fields).
Proof.
  rewrite getUniqueValues_fold. unfold Array_sort.
  rewrite merge_sort_Permutation.
  apply fold_Set_add_spec. constructor.
Qed.

Lemma getUniqueValues_elem data fields g :
  g ∈ getUniqueValues data fields ↔ ∃ item, item ∈ data ∧ groupKey fields item = g.
Proof.
  rewrite getUniqueValues_fold. unfold Array_sort.
  rewrite merge_sort_Permutation.
  rewrite (proj2 (fold_Set_add_spec _ [] (NoDup_nil_2))).
  rewrite elem_of_nil, list_elem_of_fmap.
  split; [intros [[]|(item & -> & ?)]; by exists item|intros (item & ? & <-); right; by exists item].
Qed.

Lemma getUniqueValues_sorted data fields :
  StronglySorted String.le (getUniqueValues data fields).
Proof.
  rewrite getUniqueValues_fold. apply (StronglySorted_merge_sort _).
Qed.

Lemma StronglySorted_strict (l : list string) :
  StronglySorted String.le l → NoDup l →
  StronglySorted (fun a b => String.ltb a b = true) l.
Proof.
  induction 1 as [|a l Hs IH Hall]; intros Hnd; constructor.
  - apply IH. by apply NoDup_cons in Hnd as [_ ?].
  - apply NoDup_cons in Hnd as [Hnotin _].
    rewrite List.Forall_forall in Hall. apply List.Forall_forall. intros b Hb.
    apply ltb_of_le_ne; [by apply Hall|].
    intros ->. apply Hnotin. by apply list_elem_of_In.
Qed.

(** ** The shape of the result *)

Lemma map_seq_lookup {A B} (l : list A) (g : nat → B) (h : A → B) :
  (∀ i x, l !! i = Some x → g i = h x) →
  map g (seq 0 (length l)) = map h l.
Proof.
  intros Hgh. apply list_eq. intros i.
  change (map g) with (fmap (M:=list) g). change (map h) with (fmap (M:=list) h).
  rewrite !list_lookup_fmap.
  destruct (l !! i) as [x|] eqn:E; simpl.
  - rewrite (lookup_seq_lt _ _ _ (lookup_lt_Some _ _ _ E)). simpl. f_equal. by apply Hgh.
  - rewrite lookup_seq_ge; [done|]. by apply lookup_ge_None.
Qed.

Lemma in_cell_subset config rowHeaders columnHeaders i j r c records :
  rowHeaders !! i = Some r → columnHeaders !! j = Some c →
  List.filter (in_cell config.(rows) config.(columns) rowHeaders columnHeaders i j) records
  = subset config r c records.
Proof.
  intros Hi Hj. unfold subset. apply filter_ext. intros item.
  unfold in_cell. rewrite Hi, Hj. by rewrite !matchesGroup_key.
Qed.

(** The two nested loops build the matrix row by row, one cell per pair of
    headers. *)
Lemma createPivotTable_unfold records config :
  createPivotTable records config =
  match records with
  | [] => {| data := []; rowHeaders := []; columnHeaders := [] |}
  | _ :: _ =>
      let rowHeaders := getUniqueValues records config.(rows) in
      let columnHeaders := getUniqueValues records config.(columns) in
      {| data := map (fun r => map (fun c => cell_value config records r c) columnHeaders)
                   rowHeaders;
         rowHeaders := rowHeaders;
         columnHeaders := columnHeaders |}
  end.
Proof.
  destruct records as [|item records]; [done|].
  unfold createPivotTable.
  change (Nat.eqb (length (item :: records)) 0) with false. cbv iota zeta.
  generalize (item :: records). clear item records. intros records. f_equal.
  rewrite for_upto_push, app_nil_l.
  apply map_seq_lookup. intros i r Hi.
  rewrite for_upto_push, app_nil_l.
  apply map_seq_lookup. intros j c Hj.
  unfold cell_value. by rewrite (in_cell_subset _ _ _ _ _ _ _ _ Hi Hj).
Qed.

Lemma cell_lookup records config i j r c :
  (createPivotTable records config).(rowHeaders) !! i = Some r →
  (createPivotTable records config).(columnHeaders) !! j = Some c →
  cell (createPivotTable records config).(data) i j = Some (cell_value config records r c).
Proof.
  rewrite createPivotTable_unfold. destruct records as [|item records]; [done|].
  cbv zeta. simpl. intros Hi Hj. unfold cell.
  change (map ?f ?l) with (fmap (M:=list) f l).
  rewrite list_lookup_fmap, Hi. simpl.
  change (map ?f ?l) with (fmap (M:=list) f l).
  by rewrite list_lookup_fmap, Hj.
Qed.

(** ** Aggregation *)

Lemma sum_values_fold vs : sum_values vs = fold_left PrimFloat.add vs 0%float.
Proof. done. Qed.

Lemma aggregateValues_empty valueFields a : aggregateValues [] valueFields a = 0%float.
Proof. done. Qed.

Lemma aggregateValues_kind records valueFields k :
  records ≠ [] →
  aggregateValues records valueFields (kind_name k)
  = reduce k (valueList valueFields records).
Proof.
  intros Hne. unfold aggregateValues.
  destruct records as [|item records]; [done|]. simpl Nat.eqb. cbv iota.
  rewrite flat_map_concat_map. fold (valueList valueFields (item :: records)).
  destruct k; done.
Qed.

Lemma aggregateValues_unknown records valueFields a :
  a ∉ known_kinds →
  aggregateValues records valueFields a = aggregateValues records valueFields "sum".
Proof.
  intros Ha. unfold aggregateValues.
  destruct (Nat.eqb (length records) 0); [done|].
  assert (∀ k, k ∈ known_kinds → String.eqb a k = false) as Hk.
  { intros k Hin. apply String.eqb_neq. by intros ->. }
  unfold known_kinds in Hk.
  rewrite !Hk by (repeat first [apply list_elem_of_here | apply list_elem_of_further]).
  done.
Qed.

Lemma coerce_unparsable v : PrimFloat.is_nan (parseFloat v) = true → coerce v = 0%float.
Proof. unfold coerce, or_zero. by intros ->. Qed.

Lemma subset_nil_iff config r c records :
  subset config r c records = [] ↔
  ∀ item, item ∈ records →
    ¬ (groupKey config.(rows) item = r ∧ groupKey config.(columns) item = c).
Proof.
  unfold subset. induction records as [|x records IH]; simpl.
  - split; [|done]. intros _ item Hin. by apply elem_of_nil in Hin.
  - destruct (String.eqb _ r && String.eqb _ c) eqn:E.
    + split; [done|]. intros H. exfalso. apply (H x); [apply list_elem_of_here|].
      apply andb_true_iff in E as [E1 E2]. by rewrite !String_eqb_true in E1, E2.
    + rewrite IH. split.
      * intros H item [->|Hin]%elem_of_cons; [|by apply H].
        intros [H1 H2]. apply andb_false_iff in E as [E|E];
          apply String.eqb_neq in E; done.
      * intros H item Hin. apply H. by apply list_elem_of_further.
Qed.

(** ** An axis without fields *)

Lemma groupKey_no_fields item : groupKey [] item = "".
Proof. done. Qed.

Lemma getUniqueValues_no_fields records :
  records ≠ [] → getUniqueValues records [] = [""].
Proof.
  intros Hne. rewrite getUniqueValues_fold.
  destruct records as [|item records]; [done|]. simpl.
  change (Set_add [] (groupKey [] item)) with [""].
  assert (fold_left Set_add (map (groupKey []) records) [""] = [""]) as ->; [|done].
  induction records as [|x records IH]; [done|]. simpl. apply IH. done.
Qed.

(** ** The order of numbers, Math.min and Math.max *)

Ltac sf_cases :=
  repeat match goal with
  | s : bool |- _ => destruct s
  end; simpl; try done;
  repeat match goal with
  | |- context [Z.compare ?a ?b] => destruct (Z.compare_spec a b); simpl; try done; try lia
  | |- context [Pos.compare_cont Eq ?a ?b] =>
      change (Pos.compare_cont Eq a b) with (Pos.compare a b);
      destruct (Pos.compare_spec a b); simpl; try done; try lia
  end.

Lemma SFleb_trans (x y z : spec_float) :
  SFleb x y = true → SFleb y z = true → SFleb x z = true.
Proof.
  unfold SFleb.
  destruct x as [sx|sx| |sx mx ex], y as [sy|sy| |sy my ey], z as [sz|sz| |sz mz ez];
    simpl; try done; sf_cases.
Qed.

Lemma SFltb_false_leb (x y : spec_float) :
  x ≠ S754_nan → y ≠ S754_nan → SFltb x y = false → SFleb y x = true.
Proof.
  unfold SFltb, SFleb.
  destruct x as [sx|sx| |sx mx ex], y as [sy|sy| |sy my ey];
    simpl; try done; sf_cases.
Qed.

Lemma SFltb_leb (x y : spec_float) : SFltb x y = true → SFleb x y = true.
Proof. unfold SFltb, SFleb. by destruct (SFcompare x y) as [[]|]. Qed.

Lemma SFleb_refl (x : spec_float) : x ≠ S754_nan → SFleb x x = true.
Proof.
  unfold SFleb. destruct x as [sx|sx| |sx mx ex]; simpl; try done; sf_cases.
Qed.

Lemma SFleb_infinity (x : spec_float) :
  SFleb (S754_infinity false) x = true → x = S754_infinity false.
Proof. unfold SFleb. destruct x as [sx|sx| |sx mx ex]; simpl; try done; sf_cases. Qed.

Lemma is_number_SF (x : float) : is_number x ↔ Prim2SF x ≠ S754_nan.
Proof.
  unfold is_number, PrimFloat.is_nan. rewrite FloatAxioms.eqb_spec. unfold SFeqb.
  destruct (Prim2SF x) as [sx|sx| |sx mx ex]; simpl; try done; sf_cases.
Qed.

Lemma leb_trans (x y z : float) :
  (x <=? y)%float = true → (y <=? z)%float = true → (x <=? z)%float = true.
Proof. rewrite !leb_spec. apply SFleb_trans. Qed.

Lemma ltb_false_leb (x y : float) :
  is_number x → is_number y → (x <? y)%float = false → (y <=? x)%float = true.
Proof. rewrite !is_number_SF, ltb_spec, leb_spec. apply SFltb_false_leb. Qed.

Lemma ltb_leb (x y : float) : (x <? y)%float = true → (x <=? y)%float = true.
Proof. rewrite ltb_spec, leb_spec. apply SFltb_leb. Qed.

Lemma leb_refl (x : float) : is_number x → (x <=? x)%float = true.
Proof. rewrite is_number_SF, leb_spec. apply SFleb_refl. Qed.

Lemma infinity_leb (x : float) : (infinity <=? x)%float = true → x = infinity.
Proof.
  rewrite leb_spec. intros H. apply Prim2SF_inj.
  change (Prim2SF infinity) with (S754_infinity false) in *.
  by apply SFleb_infinity.
Qed.

Lemma SFleb_neg_infinity (x : spec_float) :
  SFleb x (S754_infinity true) = true → x = S754_infinity true.
Proof. unfold SFleb. destruct x as [sx|sx| |sx mx ex]; simpl; try done; sf_cases. Qed.

Lemma leb_neg_infinity (x : float) : (x <=? neg_infinity)%float = true → x = neg_infinity.
Proof.
  rewrite leb_spec. intros H. apply Prim2SF_inj.
  change (Prim2SF neg_infinity) with (S754_infinity true) in *.
  by apply SFleb_neg_infinity.
Qed.

Lemma or_zero_clean (x : float) : clean (or_zero x).
Proof.
  unfold or_zero, clean, is_number.
  destruct (PrimFloat.is_nan x) eqn:En; [done|].
  destruct (PrimFloat.is_zero x) eqn:Ez; [done|]. simpl. split; [done|].
  unfold is_neg_zero. destruct (Prim2SF x) as [[]| | |] eqn:E; try done.
  rewrite <- (SF2Prim_Prim2SF x), E in Ez. done.
Qed.

Lemma min_step_clean (lowest number : float) :
  is_number lowest → clean number →
  min_step lowest number = if (number <? lowest)%float then number else lowest.
Proof.
  unfold min_step, clean, is_number. intros -> [-> ->]. done.
Qed.

Lemma max_step_clean (highest number : float) :
  is_number highest → is_neg_zero highest = false → is_number number →
  max_step highest number = if (highest <? number)%float then number else highest.
Proof.
  unfold max_step, is_number. intros -> -> ->. simpl. by rewrite andb_false_r.
Qed.

Lemma fold_min_step (vs : list float) (acc : float) :
  is_number acc → Forall clean vs →
  is_number (fold_left min_step vs acc)
  ∧ (fold_left min_step vs acc <=? acc)%float = true
  ∧ (∀ x, x ∈ vs → (fold_left min_step vs acc <=? x)%float = true)
  ∧ (fold_left min_step vs acc = acc ∨ fold_left min_step vs acc ∈ vs).
Proof.
  revert acc. induction vs as [|v vs IH]; intros acc Hacc Hvs; simpl.
  - split_and!; [done|by apply leb_refl| |by left].
    intros x Hx. by apply elem_of_nil in Hx.
  - apply Forall_cons in Hvs as [Hv Hvs].
    rewrite (min_step_clean _ _ Hacc Hv).
    destruct (v <? acc)%float eqn:E.
    + destruct (IH v (proj1 Hv) Hvs) as (H1 & H2 & H3 & H4).
      split_and!; [done| | |].
      * eapply leb_trans; [exact H2|]. by apply ltb_leb.
      * intros x [->|Hx]%elem_of_cons; [done|by apply H3].
      * right. destruct H4 as [->|H4]; [apply list_elem_of_here|by apply list_elem_of_further].
    + destruct (IH acc Hacc Hvs) as (H1 & H2 & H3 & H4).
      split_and!; [done|done| |].
      * intros x [->|Hx]%elem_of_cons; [|by apply H3].
        eapply leb_trans; [exact H2|]. apply ltb_false_leb; [apply Hv|done..].
      * destruct H4 as [H4|H4]; [by left|right; by apply list_elem_of_further].
Qed.

Lemma Math_min_is_minimum (vs : list float) :
  vs ≠ [] → Forall clean vs → is_minimum (Math_min vs) vs.
Proof.
  intros Hne Hvs. unfold Math_min.
  destruct (fold_min_step vs infinity eq_refl Hvs) as (H1 & H2 & H3 & H4).
  split; [|done]. destruct H4 as [H4|H4]; [|done].
  destruct vs as [|v vs]; [done|].
  rewrite H4 in H3 |- *.
  rewrite <- (infinity_leb v) at 1; [apply list_elem_of_here|].
  apply H3, list_elem_of_here.
Qed.

Lemma fold_max_step (vs : list float) (acc : float) :
  is_number acc → is_neg_zero acc = false → Forall clean vs →
  is_number (fold_left max_step vs acc)
  ∧ (acc <=? fold_left max_step vs acc)%float = true
  ∧ (∀ x, x ∈ vs → (x <=? fold_left max_step vs acc)%float = true)
  ∧ (fold_left max_step vs acc = acc ∨ fold_left max_step vs acc ∈ vs).
Proof.
  revert acc. induction vs as [|v vs IH]; intros acc Hacc Hnz Hvs; simpl.
  - split_and!; [done|by apply leb_refl| |by left].
    intros x Hx. by apply elem_of_nil in Hx.
  - apply Forall_cons in Hvs as [Hv Hvs].
    rewrite (max_step_clean _ _ Hacc Hnz (proj1 Hv)).
    destruct (acc <? v)%float eqn:E.
    + destruct (IH v (proj1 Hv) (proj2 Hv) Hvs) as (H1 & H2 & H3 & H4).
      split_and!; [done| | |].
      * eapply leb_trans; [|exact H2]. by apply ltb_leb.
      * intros x [->|Hx]%elem_of_cons; [done|by apply H3].
      * right. destruct H4 as [->|H4]; [apply list_elem_of_here|by apply list_elem_of_further].
    + destruct (IH acc Hacc Hnz Hvs) as (H1 & H2 & H3 & H4).
      split_and!; [done|done| |].
      * intros x [->|Hx]%elem_of_cons; [|by apply H3].
        eapply leb_trans; [|exact H2]. apply ltb_false_leb; [done|apply Hv|done].
      * destruct H4 as [H4|H4]; [by left|right; by apply list_elem_of_further].
Qed.

Lemma Math_max_is_maximum (vs : list float) :
  vs ≠ [] → Forall clean vs → is_maximum (Math_max vs) vs.
Proof.
  intros Hne Hvs. unfold Math_max.
  destruct (fold_max_step vs neg_infinity eq_refl eq_refl Hvs) as (H1 & H2 & H3 & H4).
  split; [|done]. destruct H4 as [H4|H4]; [|done].
  destruct vs as [|v vs]; [done|].
  rewrite H4 in H3 |- *.
  rewrite <- (leb_neg_infinity v) at 1; [apply list_elem_of_here|].
  apply H3, list_elem_of_here.
Qed.

Lemma valueList_clean valueFields records : Forall clean (valueList valueFields records).
Proof.
  unfold valueList. apply Forall_concat, Forall_forall.
  intros vs [item [-> _]]%list_elem_of_fmap.
  apply Forall_forall. intros v [field [-> _]]%list_elem_of_fmap.
  apply or_zero_clean.
Qed.

Lemma valueList_nonempty valueFields records :
  valueFields ≠ [] → records ≠ [] → valueList valueFields records ≠ [].
Proof.
  destruct valueFields, records; done.
Qed.

(** ** Counting *)

Lemma sum_list_with_add {A} (f g : A → nat) (l : list A) :
  sum_list_with (fun x => f x + g x)%nat l = (sum_list_with f l + sum_list_with g l)%nat.
Proof. induction l as [|x l IH]; simpl; lia. Qed.

Lemma sum_list_with_ext {A} (f g : A → nat) (l : list A) :
  (∀ x, x ∈ l → f x = g x) → sum_list_with f l = sum_list_with g l.
Proof.
  induction l as [|x l IH]; intros H; simpl; [done|].
  rewrite (H x) by apply list_elem_of_here. rewrite IH; [done|].
  intros y Hy. apply H. by apply list_elem_of_further.
Qed.

(** A key that occurs in a duplicate-free list of groups is counted once. *)
Lemma indicator_sum (L : list string) (g : string) :
  NoDup L → g ∈ L →
  sum_list_with (fun h => if String.eqb g h then 1 else 0)%nat L = 1%nat.
Proof.
  induction 1 as [|h L Hnotin Hnd IH]; intros Hin; [by apply elem_of_nil in Hin|].
  simpl. destruct (String.eqb g h) eqn:E.
  - apply String.eqb_eq in E as ->.
    rewrite (sum_list_with_ext _ (fun _ => 0%nat)).
    + clear. induction L; simpl; lia.
    + intros x Hx. destruct (String.eqb h x) eqn:E'; [|done].
      apply String.eqb_eq in E' as ->. done.
  - apply String.eqb_neq in E. apply elem_of_cons in Hin as [?|Hin]; [done|].
    by rewrite IH.
Qed.

(** Every record falls in exactly one group of its axis. *)
Lemma partition_count {A} (key : A → string) (L : list string) (l : list A) :
  NoDup L → (∀ x, x ∈ l → key x ∈ L) →
  sum_list_with (fun g => length (List.filter (fun x => String.eqb (key x) g) l)) L
  = length l.
Proof.
  intros Hnd. induction l as [|x l IH]; intros Hin; simpl.
  - clear. induction L; simpl; lia.
  - rewrite (sum_list_with_ext _
      (fun g => (if String.eqb (key x) g then 1 else 0)
                + length (List.filter (fun y => String.eqb (key y) g) l))%nat).
    + rewrite sum_list_with_add, indicator_sum, IH; [done| |done|].
      * intros y Hy. apply Hin. by apply list_elem_of_further.
      * apply Hin. apply list_elem_of_here.
    + intros g _. by destruct (String.eqb (key x) g).
Qed.

Lemma filter_andb {A} (p q : A → bool) (l : list A) :
  List.filter (fun x => p x && q x) l = List.filter q (List.filter p l).
Proof.
  induction l as [|x l IH]; simpl; [done|].
  destruct (p x); simpl; [destruct (q x)|]; by rewrite IH.
Qed.

Lemma subset_partition (records : list PivotData) (config : PivotConfig) :
  sum_list_with
    (fun r => sum_list_with (fun c => length (subset config r c records))
                (getUniqueValues records config.(columns)))
    (getUniqueValues records config.(rows))
  = length records.
Proof.
  rewrite <- (partition_count (groupKey config.(rows))
                (getUniqueValues records config.(rows)) records)
    by (try apply getUniqueValues_NoDup; intros x Hx; apply getUniqueValues_elem; eauto).
  apply sum_list_with_ext. intros r _.
  unfold subset.
  rewrite (sum_list_with_ext _
    (fun c => length (List.filter (fun item => String.eqb (groupKey config.(columns) item) c)
                        (List.filter (fun item => String.eqb (groupKey config.(rows) item) r) records)))).
  - apply partition_count; [apply getUniqueValues_NoDup|].
    intros x Hx%list_elem_of_In%filter_In. destruct Hx as [Hx%list_elem_of_In _].
    apply getUniqueValues_elem. eauto.
  - intros c _. by rewrite filter_andb.
Qed.

Lemma valueList_length valueFields records :
  length (valueList valueFields records) = (length records * length valueFields)%nat.
Proof.
  unfold valueList. induction records as [|x records IH]; simpl; [done|].
  rewrite length_app, length_map, IH. done.
Qed.

Lemma subset_length_le config r c records :
  (length (subset config r c records) <= length records)%nat.
Proof. apply filter_length_le. Qed.

Lemma exact_sum_app l1 l2 a b :
  exact_sum l1 = Some a → exact_sum l2 = Some b → exact_sum (l1 ++ l2) = Some (a + b).
Proof.
  revert a. induction l1 as [|x l1 IH]; intros a; simpl.
  - intros [= <-]. done.
  - destruct (Number_to_Z x) as [u|]; [|done].
    destruct (exact_sum l1) as [v|]; [|done].
    intros [= <-] H2. rewrite (IH v eq_refl H2). f_equal. lia.
Qed.

Lemma exact_sum_map {A} (f : A → float) (n : A → nat) (l : list A) :
  (∀ x, x ∈ l → Number_to_Z (f x) = Some (Z.of_nat (n x))) →
  exact_sum (map f l) = Some (Z.of_nat (sum_list_with n l)).
Proof.
  induction l as [|x l IH]; intros H; simpl; [done|].
  rewrite (H x) by apply list_elem_of_here.
  rewrite IH by (intros y Hy; apply H; by apply list_elem_of_further).
  f_equal. lia.
Qed.

Lemma exact_sum_concat_map {A} (f : A → list float) (n : A → nat) (l : list A) :
  (∀ x, x ∈ l → exact_sum (f x) = Some (Z.of_nat (n x))) →
  exact_sum (concat (map f l)) = Some (Z.of_nat (sum_list_with n l)).
Proof.
  induction l as [|x l IH]; intros H; simpl; [done|].
  rewrite (exact_sum_app _ _ _ _ (H x (list_elem_of_here _ _))
             (IH (fun y Hy => H y (list_elem_of_further _ _ _ Hy)))).
  f_equal. lia.
Qed.

Lemma count_cell_exact config records r c :
  config.(aggregation) = Some "count" →
  array_length (length (valueList config.(values) (subset config r c records))) →
  Number_to_Z (cell_value config records r c)
  = Some (Z.of_nat (length (subset config r c records) * length config.(values))).
Proof.
  unfold array_length. intros Hk Hfit. unfold cell_value. rewrite Hk. simpl default.
  destruct (subset config r c records) as [|x xs] eqn:E.
  - rewrite aggregateValues_empty. done.
  - rewrite (aggregateValues_kind _ _ Count) by done. simpl reduce.
    rewrite <- valueList_length. apply Number_of_nat_exact. lia.
Qed.

(** ** The program in the store *)

Lemma post_ret {A} (x : A) (s : Imp.store) (Q : A → Imp.store → Prop) :
  Q x s → Imp.post (mret x) s Q.
Proof. done. Qed.

Lemma post_bind {A B} (m : Imp.M A) (f : A → Imp.M B) (s : Imp.store)
    (Q : B → Imp.store → Prop) :
  Imp.post m s (fun x s' => Imp.post (f x) s' Q) → Imp.post (m ≫= f) s Q.
Proof.
  unfold Imp.post, mbind, Imp.M_bind. by destruct (m s) as [x s'].
Qed.

Lemma post_mono {A} (m : Imp.M A) (s : Imp.store) (Q Q' : A → Imp.store → Prop) :
  Imp.post m s Q → (∀ x s', Q x s' → Q' x s') → Imp.post m s Q'.
Proof. unfold Imp.post. auto. Qed.

(** The loop rule: an invariant over the elements already visited. *)
Lemma post_forEach {A} (I : list A → Imp.store → Prop) (l : list A)
    (body : A → Imp.M unit) (s : Imp.store) :
  I [] s →
  (∀ visited x s', I visited s' →
     Imp.post (body x) s' (fun _ s'' => I (visited ++ [x]) s'')) →
  Imp.post (Imp.forEach l body) s (fun _ s' => I l s').
Proof.
  intros Hinit Hstep.
  assert (∀ visited s, I visited s →
            Imp.post (Imp.forEach l body) s (fun _ s' => I (visited ++ l) s')) as H.
  { induction l as [|x l IH]; intros visited s0 Hv; simpl.
    - apply post_ret. by rewrite app_nil_r.
    - apply post_bind. eapply post_mono; [by apply Hstep|].
      intros u s' Hs'. simpl in Hs'. eapply post_mono; [apply (IH _ _ Hs')|].
      intros u' s'' Hs''. simpl in Hs''. by rewrite <- app_assoc in Hs''. }
  apply (H [] s Hinit).
Qed.

Lemma post_getUniqueValues (fields : list string) (s0 s : Imp.store) :
  Imp.same_input s0 s →
  Imp.post (Imp.getUniqueValues fields) s
    (fun v s' => v = getUniqueValues (Imp.caller_data s0) fields ∧ Imp.same_input s0 s').
Proof.
  intros [Hd Hc]. unfold Imp.getUniqueValues.
  apply post_bind. unfold Imp.post at 1. simpl.
  apply post_bind. unfold Imp.post at 1. simpl.
  apply post_bind.
  eapply post_mono.
  - apply (post_forEach (fun visited s' =>
      Imp.same_input s0 s'
      ∧ Imp.set_uniqueValues s'
        = fold_left (fun uniqueValues item =>
                       Set_add uniqueValues
                         (Array_join (map (fun field => get item field) fields) " - "))
            visited [])).
    + done.
    + intros visited x s' [[Hd' Hc'] Hset]. unfold Imp.post. simpl.
      split; [done|]. by rewrite fold_left_app, Hset.
  - intros u s' [[Hd' Hc'] Hset]. simpl.
    apply post_bind. unfold Imp.post. simpl.
    split; [|done]. unfold getUniqueValues. by rewrite Hset, Hd.
Qed.

Lemma post_createPivotTable (s : Imp.store) :
  Imp.post Imp.createPivotTable s
    (fun res s' => res = createPivotTable (Imp.caller_data s) (Imp.caller_config s)
                   ∧ Imp.same_input s s').
Proof.
  unfold Imp.createPivotTable.
  apply post_bind. unfold Imp.post at 1. simpl.
  apply post_bind. unfold Imp.post at 1. simpl.
  unfold createPivotTable.
  destruct (Nat.eqb (length (Imp.caller_data s)) 0); [done|].
  set (config := Imp.caller_config s).
  set (agg := default "sum" (aggregation config)).
  apply post_bind.
  eapply post_mono; [apply (post_getUniqueValues _ s s); done|].
  intros rowHeaders s1 [-> Hin1]. simpl.
  apply post_bind.
  eapply post_mono; [apply (post_getUniqueValues _ s s1); done|].
  intros columnHeaders s2 [-> [Hd2 Hc2]]. simpl.
  set (rowHeaders := getUniqueValues (Imp.caller_data s) (rows config)).
  set (columnHeaders := getUniqueValues (Imp.caller_data s) (columns config)).
  set (cellf := fun i j =>
    aggregateValues
      (List.filter (in_cell (rows config) (columns config) rowHeaders columnHeaders i j)
         (Imp.caller_data s))
      (values config) agg).
  apply post_bind. unfold Imp.post at 1. simpl.
  apply post_bind. unfold Imp.for_upto at 1.
  eapply post_mono.
  - apply (post_forEach (fun visited s' =>
      Imp.same_input s s'
      ∧ Imp.arr_pivotData s'
        = map (fun i => map (cellf i) (seq 0 (length columnHeaders))) visited)).
    + done.
    + intros visited i s' [[Hd' Hc'] Hpd].
      apply post_bind. unfold Imp.post at 1. simpl.
      apply post_bind. unfold Imp.for_upto.
      eapply post_mono.
      * apply (post_forEach (fun done s'' =>
          Imp.same_input s s''
          ∧ Imp.arr_pivotData s'' = Imp.arr_pivotData s'
          ∧ Imp.arr_row s'' = map (cellf i) done)).
        -- done.
        -- intros done j s'' [[Hd'' Hc''] [Hpd'' Hrow]].
           unfold Imp.post. simpl. split_and!; [done..|].
           by rewrite Hrow, map_app, Hd''.
      * intros u s'' [[Hd'' Hc''] [Hpd'' Hrow]]. simpl.
        unfold Imp.post. simpl. split; [done|].
        by rewrite Hpd'', Hpd, Hrow, map_app.
  - intros u s' [[Hd' Hc'] Hpd]. simpl. unfold Imp.post. simpl.
    split; [|done]. f_equal. rewrite Hpd.
    rewrite for_upto_push, app_nil_l. apply map_ext. intros i.
    by rewrite for_upto_push, app_nil_l.
Qed.

(** ** Properties of [createPivotTable] *)

(** C1 (as the code has it): for a non-empty record list and a
    configuration with non-empty rows, columns and values, cell (i, j) is
    0 when no record has row key rowHeaders[i] and column key
    columnHeaders[j]; otherwise it is the reduction, per the configured
    kind (sum when none is configured), of the value list of those
    records (input order, record-major, field-minor, each value coerced
    to a number, an unparsable one to 0):
    sum from the left, count = length, avg = sum / count, and min (max) a
    member of the value list that is at most (at least) every member. *)
Theorem cell_is_reduction (records : list PivotData) (config : PivotConfig)
    (k : kind) (i j : nat) (r c : string) :
  records ≠ [] →
  config.(rows) ≠ [] → config.(columns) ≠ [] → config.(values) ≠ [] →
  default "sum" config.(aggregation) = kind_name k →
  (createPivotTable records config).(rowHeaders) !! i = Some r →
  (createPivotTable records config).(columnHeaders) !! j = Some c →
  cell (createPivotTable records config).(data) i j
    = Some (match subset config r c records with
            | [] => 0%float
            | _ :: _ => reduce k (valueList config.(values) (subset config r c records))
            end)
  ∧ (∀ v, PrimFloat.is_nan (parseFloat v) = true → coerce v = 0%float)
  ∧ (subset config r c records ≠ [] →
     is_minimum (reduce Min (valueList config.(values) (subset config r c records)))
       (valueList config.(values) (subset config r c records))
     ∧ is_maximum (reduce Max (valueList config.(values) (subset config r c records)))
         (valueList config.(values) (subset config r c records))).
Proof.
  intros _ _ _ Hvalues Hk Hi Hj. split_and!; [|apply coerce_unparsable|].
  - rewrite (cell_lookup _ _ _ _ _ _ Hi Hj). f_equal.
    unfold cell_value. rewrite Hk.
    destruct (subset config r c records) as [|x xs] eqn:E.
    + apply aggregateValues_empty.
    + by apply aggregateValues_kind.
  - intros Hne. simpl reduce. split.
    + apply Math_min_is_minimum; [by apply valueList_nonempty|apply valueList_clean].
    + apply Math_max_is_maximum; [by apply valueList_nonempty|apply valueList_clean].
Qed.

Lemma cell_is_reduction_witness :
  cell (createPivotTable ex1 (cfg1 (Some "avg"))).(data) 0 0 = Some 10%float.
Proof.
  destruct (cell_is_reduction ex1 (cfg1 (Some "avg")) Avg 0 0 "A" "X") as [H _];
    [discriminate | discriminate | discriminate | discriminate
    | reflexivity | reflexivity | reflexivity | ].
  rewrite H. reflexivity.
Defined.

(** C1 as stated fails on a cell without records: in Example 1 with
    aggregation avg, no record has row key "B" and column key "Y"; the
    value list of the cell is empty and its avg reduction is NaN, but the
    cell is 0.  With min the reduction is +Infinity and the cell is 0. *)
Lemma cell_without_records_is_not_the_reduction :
  (createPivotTable ex1 (cfg1 (Some "avg"))).(rowHeaders) !! 1%nat = Some "B"
  ∧ (createPivotTable ex1 (cfg1 (Some "avg"))).(columnHeaders) !! 1%nat = Some "Y"
  ∧ cell (createPivotTable ex1 (cfg1 (Some "avg"))).(data) 1 1 = Some 0%float
  ∧ reduce Avg (valueList ["b"] (subset (cfg1 (Some "avg")) "B" "Y" ex1)) = nan
  ∧ cell (createPivotTable ex1 (cfg1 (Some "avg"))).(data) 1 1
    ≠ Some (reduce Avg (valueList ["b"] (subset (cfg1 (Some "avg")) "B" "Y" ex1)))
  ∧ cell (createPivotTable ex1 (cfg1 (Some "min"))).(data) 1 1 = Some 0%float
  ∧ reduce Min (valueList ["b"] (subset (cfg1 (Some "min")) "B" "Y" ex1)) = infinity.
Proof.
  split_and!; try (vm_compute; reflexivity).
  intros H. apply (f_equal (fun o => match o with Some x => PrimFloat.is_nan x | None => false end)) in H.
  vm_compute in H. discriminate.
Qed.

(** C2: a cell whose pair of groups no input record belongs to is exactly
    0, for every aggregation (avg, min and max included). *)
Theorem empty_cell_is_zero (records : list PivotData) (config : PivotConfig)
    (i j : nat) (r c : string) :
  (createPivotTable records config).(rowHeaders) !! i = Some r →
  (createPivotTable records config).(columnHeaders) !! j = Some c →
  (∀ item, item ∈ records →
     ¬ (groupKey config.(rows) item = r ∧ groupKey config.(columns) item = c)) →
  cell (createPivotTable records config).(data) i j = Some 0%float.
Proof.
  intros Hi Hj Hnone. rewrite (cell_lookup _ _ _ _ _ _ Hi Hj). f_equal.
  unfold cell_value. apply subset_nil_iff in Hnone. rewrite Hnone.
  apply aggregateValues_empty.
Qed.

Lemma empty_cell_is_zero_witness :
  cell (createPivotTable ex1 (cfg1 (Some "avg"))).(data) 1 1 = Some 0%float.
Proof.
  apply (empty_cell_is_zero ex1 (cfg1 (Some "avg")) 1 1 "B" "Y").
  - reflexivity.
  - reflexivity.
  - intros item Hin [Hr Hc]. unfold ex1 in Hin.
    repeat (apply elem_of_cons in Hin as [->|Hin]);
      [vm_compute in Hc | vm_compute in Hr | vm_compute in Hc | by apply elem_of_nil in Hin];
      discriminate.
Defined.

(** C3: row headers and column headers are each strictly ascending in
    code-unit order (every header is below every later one) and free of
    duplicates. *)
Theorem headers_strictly_sorted (records : list PivotData) (config : PivotConfig) :
  (StronglySorted (fun a b => String.ltb a b = true) (createPivotTable records config).(rowHeaders)
   ∧ NoDup (createPivotTable records config).(rowHeaders))
  ∧ (StronglySorted (fun a b => String.ltb a b = true) (createPivotTable records config).(columnHeaders)
     ∧ NoDup (createPivotTable records config).(columnHeaders)).
Proof.
  rewrite createPivotTable_unfold. destruct records as [|item records].
  - simpl. repeat split; constructor.
  - cbv zeta. simpl.
    repeat split;
      first [ apply StronglySorted_strict;
              [apply getUniqueValues_sorted | apply getUniqueValues_NoDup]
            | apply getUniqueValues_NoDup ].
Qed.

(** C4: the result is rectangular: as many matrix rows as row headers, and
    every row as long as the column headers. *)
Theorem createPivotTable_rectangular (records : list PivotData) (config : PivotConfig) :
  length (createPivotTable records config).(data)
    = length (createPivotTable records config).(rowHeaders)
  ∧ Forall (fun row => length row = length (createPivotTable records config).(columnHeaders))
      (createPivotTable records config).(data).
Proof.
  rewrite createPivotTable_unfold. destruct records as [|item records].
  - split; [done|]. constructor.
  - cbv zeta. simpl. split.
    + by rewrite length_map.
    + apply Forall_forall. intros row [r [-> _]]%list_elem_of_fmap.
      by rewrite length_map.
Qed.

(** C5: on an empty record list the result has an empty matrix and empty
    row and column headers, whatever the configuration; and the call ends
    there: in the store no object has been created or changed. *)
Theorem createPivotTable_empty (config : PivotConfig) :
  createPivotTable [] config = {| data := []; rowHeaders := []; columnHeaders := [] |}
  ∧ ∀ uniqueValues sorted row pivotData,
      Imp.createPivotTable
        {| Imp.caller_data := []; Imp.caller_config := config;
           Imp.set_uniqueValues := uniqueValues; Imp.arr_sorted := sorted;
           Imp.arr_row := row; Imp.arr_pivotData := pivotData |}
      = ({| data := []; rowHeaders := []; columnHeaders := [] |},
         {| Imp.caller_data := []; Imp.caller_config := config;
            Imp.set_uniqueValues := uniqueValues; Imp.arr_sorted := sorted;
            Imp.arr_row := row; Imp.arr_pivotData := pivotData |}).
Proof. split; reflexivity. Qed.

(** C6 (as the code has it): the group key of a record is the texts of
    what reading the axis fields gives, in field order, joined by " - ".
    A field that holds undefined or null contributes the empty text and
    any other value its string conversion.  A field that is missing from
    the record contributes the empty text too, unless its name is a
    property of Object.prototype (constructor, toString, ...): the record
    inherits that property and the field contributes its string
    conversion.  This is the key [matchesGroup] compares and
    [getUniqueValues] collects; a record lacking the single axis field
    (not an inherited name) has the key "". *)
Theorem group_key_derivation (records : list PivotData) (item : PivotData)
    (fields : list string) (g : string) :
  Array_join (map (fun field => get item field) fields) " - "
    = String.concat " - " (map (field_text item) fields)
  ∧ (∀ field,
       field_text item field
       = match item !! field with
         | Some Undefined | Some Null => ""
         | Some v => ToString v
         | None =>
             if decide (field ∈ Object_prototype_names)
             then ToString (Object_prototype_get field) else ""
         end)
  ∧ (matchesGroup item fields g = true ↔ groupKey fields item = g)
  ∧ (g ∈ getUniqueValues records fields ↔
       ∃ item', item' ∈ records ∧ groupKey fields item' = g)
  ∧ (∀ field, item !! field = None → field ∉ Object_prototype_names →
       groupKey [field] item = "")
  ∧ (item !! "constructor" = None →
     groupKey ["constructor"] item = "function Object() { [native code] }").
Proof.
  split_and!.
  - apply key_expression.
  - intros field. destruct (item !! field) as [v|] eqn:E.
    + rewrite (field_text_own _ _ _ E). by destruct v.
    + by apply field_text_missing.
  - rewrite matchesGroup_key. apply String_eqb_true.
  - apply getUniqueValues_elem.
  - intros field Hnone Hnot. unfold groupKey. simpl.
    rewrite (field_text_missing _ _ Hnone). by rewrite decide_False.
  - intros Hnone. unfold groupKey. simpl.
    rewrite (field_text_missing _ _ Hnone). reflexivity.
Qed.

(** C6 as stated fails: the record {o: "X"} lacks the row field "s"; its
    row key is "" and not "undefined". *)
Lemma group_key_absent_field_not_undefined :
  groupKey_String ["s"] {[ "o" := Str "X" ]} = "undefined"
  ∧ Array_join (map (fun field => get {[ "o" := Str "X" ]} field) ["s"]) " - " = ""
  ∧ Array_join (map (fun field => get {[ "o" := Str "X" ]} field) ["s"]) " - "
    ≠ groupKey_String ["s"] {[ "o" := Str "X" ]}
  ∧ getUniqueValues [ {[ "o" := Str "X" ]} ] ["s"] = [""]
  ∧ matchesGroup {[ "o" := Str "X" ]} ["s"] "undefined" = false
  ∧ (createPivotTable [ {[ "o" := Str "X" ]} ]
       {| rows := ["s"]; columns := ["o"]; values := ["b"]; aggregation := None |})
      .(rowHeaders) = [""].
Proof.
  split_and!; try (vm_compute; reflexivity).
  vm_compute. intros H. discriminate H.
Qed.

(** C7: with aggregation 'count' (and non-empty rows, columns and values)
    every cell is an integer and the cells add up to records.length times
    the number of value fields.  The value list of a cell is an array, so
    its length is an array length (below 2^32); the count is then a Number
    without rounding. *)
Theorem count_total (records : list PivotData) (config : PivotConfig) :
  config.(rows) ≠ [] → config.(columns) ≠ [] → config.(values) ≠ [] →
  config.(aggregation) = Some "count" →
  (∀ r c, array_length (length (valueList config.(values) (subset config r c records)))) →
  exact_sum (concat (createPivotTable records config).(data))
  = Some (Z.of_nat (length records) * Z.of_nat (length config.(values))).
Proof.
  intros _ _ _ Hk Hfit. rewrite createPivotTable_unfold.
  destruct records as [|item records]; [done|]. cbv beta iota zeta.
  revert Hfit. generalize (item :: records). clear item records. intros records Hfit.
  cbn [data].
  rewrite (exact_sum_concat_map _
    (fun r => sum_list_with (fun c => length (subset config r c records) * length config.(values))%nat
                (getUniqueValues records config.(columns)))).
  - f_equal. rewrite <- Nat2Z.inj_mul. f_equal.
    rewrite <- (subset_partition records config).
    generalize (getUniqueValues records (rows config)) as L.
    induction L as [|r L IH]; simpl; [done|]. rewrite IH.
    rewrite Nat.mul_add_distr_r. f_equal.
    generalize (getUniqueValues records (columns config)) as M.
    induction M as [|c M IHM]; simpl; [done|]. rewrite IHM. lia.
  - intros r _. apply exact_sum_map. intros c _. by apply count_cell_exact.
Qed.

Lemma count_total_witness :
  exact_sum (concat (createPivotTable ex1 (cfg1 (Some "count"))).(data)) = Some 3.
Proof.
  apply (count_total ex1 (cfg1 (Some "count")));
    [discriminate | discriminate | discriminate | reflexivity | ].
  intros r c. unfold array_length. rewrite valueList_length.
  pose proof (subset_length_le (cfg1 (Some "count")) r c ex1) as Hle.
  simpl in Hle |- *. lia.
Defined.

(** C8: the result of a call is determined by the record list and the
    configuration alone (two calls from stores that agree on them give the
    same result, whatever else the stores hold), it is the value of the
    function [createPivotTable] on them, and the call leaves the record
    list and the configuration as they were. *)
Theorem createPivotTable_deterministic_no_side_effect (s1 s2 : Imp.store) :
  Imp.caller_data s1 = Imp.caller_data s2 →
  Imp.caller_config s1 = Imp.caller_config s2 →
  (Imp.createPivotTable s1).1 = (Imp.createPivotTable s2).1
  ∧ (Imp.createPivotTable s1).1
    = createPivotTable (Imp.caller_data s1) (Imp.caller_config s1)
  ∧ Imp.caller_data (Imp.createPivotTable s1).2 = Imp.caller_data s1
  ∧ Imp.caller_config (Imp.createPivotTable s1).2 = Imp.caller_config s1.
Proof.
  intros Hd Hc.
  destruct (post_createPivotTable s1) as [H1 [Hd1 Hc1]].
  destruct (post_createPivotTable s2) as [H2 _].
  split_and!; [|done..]. by rewrite H1, H2, Hd, Hc.
Qed.

Lemma createPivotTable_deterministic_no_side_effect_witness :
  (Imp.createPivotTable store1).1 = (Imp.createPivotTable store2).1
  ∧ (Imp.createPivotTable store1).1
    = {| data := [[10%float; 20%float]; [5%float; 0%float]];
         rowHeaders := ["A"; "B"]; columnHeaders := ["X"; "Y"] |}
  ∧ Imp.caller_data (Imp.createPivotTable store1).2 = ex1
  ∧ Imp.caller_config (Imp.createPivotTable store1).2 = cfg1 (Some "avg").
Proof.
  destruct (createPivotTable_deterministic_no_side_effect store1 store2)
    as (H1 & H2 & H3 & H4); [reflexivity | reflexivity |].
  split_and!; [exact H1 | rewrite H2; reflexivity | exact H3 | exact H4].
Defined.

(** C9: an aggregation name outside the five known ones gives the same
    result as 'sum'. *)
Theorem unknown_aggregation_is_sum (records : list PivotData) (config : PivotConfig)
    (a : string) :
  a ∉ known_kinds →
  createPivotTable records (with_aggregation config (Some a))
  = createPivotTable records (with_aggregation config (Some "sum")).
Proof.
  intros Ha. rewrite !createPivotTable_unfold.
  destruct records as [|item records]; [done|].
  cbv zeta. simpl. f_equal.
  apply map_ext. intros r. apply map_ext. intros c.
  unfold cell_value. simpl. by apply aggregateValues_unknown.
Qed.

Lemma unknown_aggregation_is_sum_witness :
  createPivotTable ex1 (with_aggregation (cfg1 None) (Some "median"))
  = createPivotTable ex1 (with_aggregation (cfg1 None) (Some "sum")).
Proof.
  apply (unknown_aggregation_is_sum ex1 (cfg1 None) "median").
  unfold known_kinds. intros Hin.
  repeat (apply elem_of_cons in Hin as [Hin|Hin]; [discriminate|]).
  by apply elem_of_nil in Hin.
Defined.

(** C10: with no row fields and at least one record there is the single
    row header "" and one matrix row, holding for each column group the
    aggregate of all the records of that group; with no column fields,
    the same with rows and columns exchanged. *)
Theorem empty_axis_single_group (records : list PivotData) (config : PivotConfig) :
  records ≠ [] →
  (config.(rows) = [] →
     (createPivotTable records config).(rowHeaders) = [""]
     ∧ (createPivotTable records config).(data)
       = [ map (fun c =>
                  aggregateValues
                    (List.filter (fun item => String.eqb (groupKey config.(columns) item) c) records)
                    config.(values) (default "sum" config.(aggregation)))
               (createPivotTable records config).(columnHeaders) ])
  ∧ (config.(columns) = [] →
     (createPivotTable records config).(columnHeaders) = [""]
     ∧ (createPivotTable records config).(data)
       = map (fun r =>
                [ aggregateValues
                    (List.filter (fun item => String.eqb (groupKey config.(rows) item) r) records)
                    config.(values) (default "sum" config.(aggregation)) ])
             (createPivotTable records config).(rowHeaders)).
Proof.
  intros Hne. rewrite createPivotTable_unfold.
  destruct records as [|item records]; [done|]. cbv beta iota zeta.
  revert Hne. generalize (item :: records). clear item records. intros recs Hne.
  cbn [data rowHeaders columnHeaders].
  split; intros Hempty; rewrite Hempty, (getUniqueValues_no_fields recs Hne);
    (split; [done|]); cbn [map].
  - f_equal. apply map_ext. intros c. unfold cell_value, subset. rewrite Hempty.
    reflexivity.
  - apply map_ext. intros r. unfold cell_value, subset. rewrite Hempty.
    do 2 f_equal. apply filter_ext. intros x.
    rewrite groupKey_no_fields. by rewrite andb_true_r.
Qed.

Lemma empty_axis_single_group_witness :
  (createPivotTable ex1 {| rows := []; columns := ["o"]; values := ["b"]; aggregation := None |})
    .(data) = [[15%float; 20%float]]
  ∧ (createPivotTable ex1 {| rows := ["s"]; columns := []; values := ["b"]; aggregation := None |})
    .(data) = [[30%float]; [5%float]].
Proof.
  split.
  - destruct (empty_axis_single_group ex1
                {| rows := []; columns := ["o"]; values := ["b"]; aggregation := None |})
      as [H _]; [discriminate|].
    destruct (H eq_refl) as [_ ->]. reflexivity.
  - destruct (empty_axis_single_group ex1
                {| rows := ["s"]; columns := []; values := ["b"]; aggregation := None |})
      as [_ H]; [discriminate|].
    destruct (H eq_refl) as [_ ->]. reflexivity.
Defined.

(** ** Further properties of the engine *)

Lemma fold_Set_add_length (l acc : list string) :
  (length (fold_left Set_add l acc) <= length acc + length l)%nat.
Proof.
  revert acc. induction l as [|a l IH]; intros acc; simpl; [lia|].
  etrans; [apply IH|]. unfold Set_add.
  destruct (decide (a ∈ acc)); [lia|]. rewrite length_app. simpl. lia.
Qed.

Lemma getUniqueValues_length records fields :
  (length (getUniqueValues records fields) <= length records)%nat.
Proof.
  rewrite getUniqueValues_fold. unfold Array_sort.
  rewrite (Permutation_length (merge_sort_Permutation _ _)).
  etrans; [apply fold_Set_add_length|]. simpl. by rewrite length_map.
Qed.

Lemma getUniqueValues_nonempty records fields :
  records ≠ [] → getUniqueValues records fields ≠ [].
Proof.
  destruct records as [|item records]; [done|]. intros _ Hnil.
  assert (groupKey fields item ∈ getUniqueValues (item :: records) fields) as Hin.
  { apply getUniqueValues_elem. exists item. split; [apply list_elem_of_here|done]. }
  rewrite Hnil in Hin. by apply elem_of_nil in Hin.
Qed.

Lemma headers_of_result records config :
  records ≠ [] →
  (createPivotTable records config).(rowHeaders) = getUniqueValues records config.(rows)
  ∧ (createPivotTable records config).(columnHeaders) = getUniqueValues records config.(columns).
Proof.
  intros Hne. rewrite createPivotTable_unfold. by destruct records.
Qed.

Lemma subset_elem config r c records item :
  item ∈ subset config r c records ↔
  item ∈ records ∧ groupKey config.(rows) item = r ∧ groupKey config.(columns) item = c.
Proof.
  unfold subset. rewrite !list_elem_of_In, filter_In, andb_true_iff, !String_eqb_true.
  done.
Qed.

(** Every record lies in exactly one cell: there is one pair of indices
    whose headers are the record's row key and column key. *)
Theorem record_in_exactly_one_cell (records : list PivotData) (config : PivotConfig)
    (item : PivotData) :
  item ∈ records →
  ∃ i j,
    (createPivotTable records config).(rowHeaders) !! i = Some (groupKey config.(rows) item)
    ∧ (createPivotTable records config).(columnHeaders) !! j
      = Some (groupKey config.(columns) item)
    ∧ ∀ i' j' r c,
        (createPivotTable records config).(rowHeaders) !! i' = Some r →
        (createPivotTable records config).(columnHeaders) !! j' = Some c →
        item ∈ subset config r c records → i' = i ∧ j' = j.
Proof.
  intros Hin.
  assert (records ≠ []) as Hne by (intros ->; by apply elem_of_nil in Hin).
  destruct (headers_of_result records config Hne) as [-> ->].
  assert (groupKey config.(rows) item ∈ getUniqueValues records config.(rows)) as Hr
    by (apply getUniqueValues_elem; eauto).
  assert (groupKey config.(columns) item ∈ getUniqueValues records config.(columns)) as Hc
    by (apply getUniqueValues_elem; eauto).
  apply list_elem_of_lookup in Hr as [i Hi]. apply list_elem_of_lookup in Hc as [j Hj].
  exists i, j. split_and!; [done..|].
  intros i' j' r c Hi' Hj' (_ & <- & <-)%subset_elem. split.
  - eapply NoDup_lookup; [apply getUniqueValues_NoDup|exact Hi'|exact Hi].
  - eapply NoDup_lookup; [apply getUniqueValues_NoDup|exact Hj'|exact Hj].
Qed.

Lemma record_in_exactly_one_cell_witness :
  ∃ i j,
    (createPivotTable ex1 (cfg1 None)).(rowHeaders) !! i = Some "B"
    ∧ (createPivotTable ex1 (cfg1 None)).(columnHeaders) !! j = Some "X"
    ∧ ∀ i' j' r c,
        (createPivotTable ex1 (cfg1 None)).(rowHeaders) !! i' = Some r →
        (createPivotTable ex1 (cfg1 None)).(columnHeaders) !! j' = Some c →
        {[ "s" := Str "B"; "o" := Str "X"; "b" := Num 5 ]} ∈ subset (cfg1 None) r c ex1 →
        i' = i ∧ j' = j.
Proof.
  destruct (record_in_exactly_one_cell ex1 (cfg1 None)
              {[ "s" := Str "B"; "o" := Str "X"; "b" := Num 5 ]})
    as (i & j & Hi & Hj & Hunique).
  - unfold ex1. do 2 apply list_elem_of_further. apply list_elem_of_here.
  - exists i, j. split_and!; [exact Hi | exact Hj | exact Hunique].
Defined.

(** No row and no column of the matrix is without records: every row
    header has a column, and every column header a row, whose cell holds
    at least one record. *)
Theorem no_empty_row_or_column (records : list PivotData) (config : PivotConfig) :
  (∀ i r, (createPivotTable records config).(rowHeaders) !! i = Some r →
     ∃ j c, (createPivotTable records config).(columnHeaders) !! j = Some c
            ∧ subset config r c records ≠ [])
  ∧ (∀ j c, (createPivotTable records config).(columnHeaders) !! j = Some c →
     ∃ i r, (createPivotTable records config).(rowHeaders) !! i = Some r
            ∧ subset config r c records ≠ []).
Proof.
  destruct records as [|x records].
  { split; intros k h H; change (@nil string !! k = Some h) in H;
      by rewrite lookup_nil in H. }
  destruct (headers_of_result (x :: records) config) as [-> ->]; [done|].
  generalize (x :: records). clear x records. intros records.
  split.
  - intros i r Hi.
    apply list_elem_of_lookup_2, getUniqueValues_elem in Hi as (item & Hin & Hr).
    assert (groupKey config.(columns) item ∈ getUniqueValues records config.(columns)) as Hc
      by (apply getUniqueValues_elem; eauto).
    apply list_elem_of_lookup in Hc as [j Hj]. exists j, (groupKey config.(columns) item).
    split; [done|]. intros Hnil.
    assert (item ∈ subset config r (groupKey config.(columns) item) records) as H
      by (by apply subset_elem).
    rewrite Hnil in H. by apply elem_of_nil in H.
  - intros j c Hj.
    apply list_elem_of_lookup_2, getUniqueValues_elem in Hj as (item & Hin & Hc).
    assert (groupKey config.(rows) item ∈ getUniqueValues records config.(rows)) as Hr
      by (apply getUniqueValues_elem; eauto).
    apply list_elem_of_lookup in Hr as [i Hi]. exists i, (groupKey config.(rows) item).
    split; [done|]. intros Hnil.
    assert (item ∈ subset config (groupKey config.(rows) item) c records) as H
      by (by apply subset_elem).
    rewrite Hnil in H. by apply elem_of_nil in H.
Qed.

(** For a non-empty record list the matrix has at least one row and one
    column, and at most as many of each as there are records. *)
Theorem matrix_size_bounds (records : list PivotData) (config : PivotConfig) :
  records ≠ [] →
  (1 <= length (createPivotTable records config).(rowHeaders) <= length records)%nat
  ∧ (1 <= length (createPivotTable records config).(columnHeaders) <= length records)%nat
  ∧ (createPivotTable records config).(data) ≠ [].
Proof.
  intros Hne. destruct (headers_of_result records config Hne) as [Hr Hc].
  pose proof (getUniqueValues_nonempty records config.(rows) Hne) as Hr1.
  pose proof (getUniqueValues_nonempty records config.(columns) Hne) as Hc1.
  pose proof (getUniqueValues_length records config.(rows)).
  pose proof (getUniqueValues_length records config.(columns)).
  rewrite Hr, Hc. split_and!.
  - destruct (getUniqueValues records (rows config)); [done|simpl; lia].
  - done.
  - destruct (getUniqueValues records (columns config)); [done|simpl; lia].
  - done.
  - rewrite createPivotTable_unfold. destruct records as [|x l]; [done|].
    cbv beta iota zeta. cbn [data].
    by destruct (getUniqueValues (x :: l) (rows config)).
Qed.

Lemma matrix_size_bounds_witness :
  (1 <= length (createPivotTable ex1 (cfg1 None)).(rowHeaders) <= 3)%nat
  ∧ (1 <= length (createPivotTable ex1 (cfg1 None)).(columnHeaders) <= 3)%nat
  ∧ (createPivotTable ex1 (cfg1 None)).(data) ≠ [].
Proof. apply (matrix_size_bounds ex1 (cfg1 None)). discriminate. Defined.

Lemma List_filter_Permutation {A} (p : A → bool) (l l' : list A) :
  l ≡ₚ l' → List.filter p l ≡ₚ List.filter p l'.
Proof.
  induction 1 as [|x l l' _ IH|x y l|l1 l2 l3 _ IH1 _ IH2]; simpl.
  - done.
  - destruct (p x); by rewrite IH.
  - destruct (p x), (p y); try done. apply perm_swap.
  - by etrans.
Qed.

Lemma valueList_Permutation valueFields (l l' : list PivotData) :
  l ≡ₚ l' → valueList valueFields l ≡ₚ valueList valueFields l'.
Proof.
  unfold valueList.
  induction 1 as [|x l l' _ IH|x y l|l1 l2 l3 _ IH1 _ IH2]; simpl.
  - done.
  - by rewrite IH.
  - rewrite !app_assoc. f_equiv. apply Permutation_app_comm.
  - by etrans.
Qed.

Lemma SFleb_antisym (x y : spec_float) :
  SFleb x y = true → SFleb y x = true →
  x = y ∨ (∃ s s', x = S754_zero s ∧ y = S754_zero s').
Proof.
  unfold SFleb.
  destruct x as [sx|sx| |sx mx ex], y as [sy|sy| |sy my ey];
    simpl; try done; try (intros _ _; right; eauto; fail); sf_cases;
    try (intros _ _; left; congruence).
Qed.

Lemma leb_antisym (x y : float) :
  clean x → clean y → (x <=? y)%float = true → (y <=? x)%float = true → x = y.
Proof.
  intros [_ Hx] [_ Hy]. rewrite !leb_spec. intros H1 H2.
  apply Prim2SF_inj.
  destruct (SFleb_antisym _ _ H1 H2) as [|(s & s' & Es & Es')]; [done|].
  unfold is_neg_zero in Hx, Hy. rewrite Es in Hx. rewrite Es' in Hy.
  rewrite Es, Es'. by destruct s, s'.
Qed.

Lemma minimum_unique (v v' : float) (vs vs' : list float) :
  vs ≡ₚ vs' → Forall clean vs → is_minimum v vs → is_minimum v' vs' → v = v'.
Proof.
  intros Hp Hclean [Hin Hle] [Hin' Hle'].
  rewrite <- Hp in Hin'. rewrite Forall_forall in Hclean.
  apply leb_antisym; [by apply Hclean..| |].
  - by apply Hle.
  - apply Hle'. by rewrite <- Hp.
Qed.

Lemma maximum_unique (v v' : float) (vs vs' : list float) :
  vs ≡ₚ vs' → Forall clean vs → is_maximum v vs → is_maximum v' vs' → v = v'.
Proof.
  intros Hp Hclean [Hin Hle] [Hin' Hle'].
  rewrite <- Hp in Hin'. rewrite Forall_forall in Hclean.
  apply leb_antisym; [by apply Hclean..| |].
  - apply Hle'. by rewrite <- Hp.
  - by apply Hle.
Qed.

Lemma getUniqueValues_Permutation records records' fields :
  records ≡ₚ records' → getUniqueValues records fields = getUniqueValues records' fields.
Proof.
  intros Hp.
  apply (StronglySorted_unique String.le); [apply getUniqueValues_sorted..|].
  apply NoDup_Permutation; [apply getUniqueValues_NoDup..|].
  intros g. rewrite !getUniqueValues_elem.
  split; intros (item & Hin & Hk); exists item; (split; [|done]).
  - by rewrite <- Hp.
  - by rewrite Hp.
Qed.

Lemma aggregateValues_Permutation (l l' : list PivotData) valueFields (a : string) :
  l ≡ₚ l' → a ∈ ["count"; "min"; "max"] →
  aggregateValues l valueFields a = aggregateValues l' valueFields a.
Proof.
  intros Hp Ha.
  destruct l as [|x l].
  { apply Permutation_nil_l in Hp as ->. done. }
  destruct l' as [|x' l'].
  { by apply Permutation_nil_r in Hp. }
  pose proof (valueList_Permutation valueFields _ _ Hp) as Hv.
  repeat (apply elem_of_cons in Ha as [->|Ha]); [| | |by apply elem_of_nil in Ha].
  - rewrite !(aggregateValues_kind _ _ Count) by done. simpl.
    by rewrite (Permutation_length Hv).
  - rewrite !(aggregateValues_kind _ _ Min) by done. simpl.
    destruct (valueList valueFields (x :: l)) as [|v vs] eqn:E.
    { apply Permutation_nil_l in Hv. by rewrite Hv. }
    eapply minimum_unique; [exact Hv|rewrite <- E; apply valueList_clean|..];
      apply Math_min_is_minimum; try done.
    + rewrite <- E. apply valueList_clean.
    + intros Hnil. rewrite Hnil in Hv. by apply Permutation_nil_r in Hv.
    + rewrite <- Hv, <- E. apply valueList_clean.
  - rewrite !(aggregateValues_kind _ _ Max) by done. simpl.
    destruct (valueList valueFields (x :: l)) as [|v vs] eqn:E.
    { apply Permutation_nil_l in Hv. by rewrite Hv. }
    eapply maximum_unique; [exact Hv|rewrite <- E; apply valueList_clean|..];
      apply Math_max_is_maximum; try done.
    + rewrite <- E. apply valueList_clean.
    + intros Hnil. rewrite Hnil in Hv. by apply Permutation_nil_r in Hv.
    + rewrite <- Hv, <- E. apply valueList_clean.
Qed.

(** The order of the records does not matter for the headers, nor for the
    matrix under count, min and max.  (Under sum it can, see
    [sum_depends_on_order]: number addition is not associative.) *)
Theorem reordering_records (records records' : list PivotData) (config : PivotConfig) :
  records ≡ₚ records' →
  (createPivotTable records config).(rowHeaders)
    = (createPivotTable records' config).(rowHeaders)
  ∧ (createPivotTable records config).(columnHeaders)
    = (createPivotTable records' config).(columnHeaders)
  ∧ (default "sum" config.(aggregation) ∈ ["count"; "min"; "max"] →
     createPivotTable records config = createPivotTable records' config).
Proof.
  intros Hp. rewrite !createPivotTable_unfold.
  destruct records as [|x l].
  { apply Permutation_nil_l in Hp. by subst. }
  destruct records' as [|x' l'].
  { by apply Permutation_nil_r in Hp. }
  cbv beta iota zeta.
  revert Hp. generalize (x :: l) (x' :: l'). clear. intros records records' Hp.
  cbn [rowHeaders columnHeaders].
  rewrite !(getUniqueValues_Permutation _ _ _ Hp).
  split_and!; [done..|]. intros Ha. f_equal.
  apply map_ext. intros r. apply map_ext. intros c.
  unfold cell_value. apply aggregateValues_Permutation; [|done].
  unfold subset. by apply List_filter_Permutation.
Qed.

Lemma reordering_records_witness :
  createPivotTable ex1 (cfg1 (Some "max")) = createPivotTable (reverse ex1) (cfg1 (Some "max")).
Proof.
  destruct (reordering_records ex1 (reverse ex1) (cfg1 (Some "max"))) as (_ & _ & H).
  - symmetry. apply reverse_Permutation.
  - apply H. simpl. do 2 apply list_elem_of_further. apply list_elem_of_here.
Defined.

(** Under sum the order can matter: 1e16 + 1 rounds back to 1e16. *)
Example sum_depends_on_order :
  (createPivotTable
     [ {[ "b" := Str "1e16" ]}; {[ "b" := Str "1" ]}; {[ "b" := Str "-1e16" ]} ]
     {| rows := []; columns := []; values := ["b"]; aggregation := Some "sum" |}).(data)
  = [[0%float]]
  ∧ (createPivotTable
       [ {[ "b" := Str "1e16" ]}; {[ "b" := Str "-1e16" ]}; {[ "b" := Str "1" ]} ]
       {| rows := []; columns := []; values := ["b"]; aggregation := Some "sum" |}).(data)
    = [[1%float]].
Proof. split; vm_compute; reflexivity. Qed.

(** With at least one value field, the min matrix is cell by cell at most
    the max matrix of the same records and configuration. *)
Theorem min_cell_le_max_cell (records : list PivotData) (config : PivotConfig)
    (i j : nat) (r c : string) :
  config.(values) ≠ [] →
  (createPivotTable records config).(rowHeaders) !! i = Some r →
  (createPivotTable records config).(columnHeaders) !! j = Some c →
  ∃ lo hi,
    cell (createPivotTable records (with_aggregation config (Some "min"))).(data) i j = Some lo
    ∧ cell (createPivotTable records (with_aggregation config (Some "max"))).(data) i j = Some hi
    ∧ (lo <=? hi)%float = true.
Proof.
  intros Hvalues Hi Hj.
  assert (∀ a, (createPivotTable records (with_aggregation config a)).(rowHeaders)
               = (createPivotTable records config).(rowHeaders)
             ∧ (createPivotTable records (with_aggregation config a)).(columnHeaders)
               = (createPivotTable records config).(columnHeaders)) as Hsame.
  { intros a. rewrite !createPivotTable_unfold. by destruct records. }
  eexists _, _. split_and!.
  - apply cell_lookup; by rewrite (proj1 (Hsame _)) || rewrite (proj2 (Hsame _)).
  - apply cell_lookup; by rewrite (proj1 (Hsame _)) || rewrite (proj2 (Hsame _)).
  - unfold cell_value, with_aggregation. cbn [aggregation values default].
    change (subset _ r c records) with (subset config r c records).
    destruct (subset config r c records) as [|x xs] eqn:E; [done|].
    rewrite (aggregateValues_kind _ _ Min), (aggregateValues_kind _ _ Max) by done.
    simpl reduce.
    assert (valueList (values config) (x :: xs) ≠ []) as Hne
      by (by apply valueList_nonempty).
    destruct (Math_min_is_minimum _ Hne (valueList_clean _ _)) as [_ Hle].
    destruct (Math_max_is_maximum _ Hne (valueList_clean _ _)) as [Hin _].
    by apply Hle.
Qed.

Lemma min_cell_le_max_cell_witness :
  ∃ lo hi,
    cell (createPivotTable ex1 (with_aggregation (cfg1 None) (Some "min"))).(data) 0 1 = Some lo
    ∧ cell (createPivotTable ex1 (with_aggregation (cfg1 None) (Some "max"))).(data) 0 1 = Some hi
    ∧ (lo <=? hi)%float = true.
Proof.
  apply (min_cell_le_max_cell ex1 (cfg1 None) 0 1 "A" "Y");
    [discriminate | reflexivity | reflexivity].
Defined.

Lemma fold_add_zeros (vs : list float) :
  Forall (fun v => v = 0%float) vs → fold_left PrimFloat.add vs 0%float = 0%float.
Proof.
  induction 1 as [|v vs -> _ IH]; [done|]. simpl.
  change (0 + 0)%float with 0%float. exact IH.
Qed.

Lemma valueList_zeros valueFields (l : list PivotData) :
  (∀ item field, item ∈ l → field ∈ valueFields →
     PrimFloat.is_nan (parseFloat (get item field)) = true) →
  Forall (fun v => v = 0%float) (valueList valueFields l).
Proof.
  intros H. unfold valueList. apply Forall_concat, Forall_forall.
  intros vs [item [-> Hin]]%list_elem_of_fmap.
  apply Forall_forall. intros v [field [-> Hf]]%list_elem_of_fmap.
  apply coerce_unparsable. by apply H.
Qed.

(** Values that do not parse as numbers (a missing field, null, a boolean,
    other text) aggregate to nothing: if no record has a parsable value in
    any value field, every cell is 0 under sum, min and max, and under
    any unknown aggregation. *)
Theorem unparsable_values_give_zero (records : list PivotData) (config : PivotConfig) :
  config.(values) ≠ [] →
  default "sum" config.(aggregation) ≠ "count" →
  default "sum" config.(aggregation) ≠ "avg" →
  (∀ item field, item ∈ records → field ∈ config.(values) →
     PrimFloat.is_nan (parseFloat (get item field)) = true) →
  Forall (Forall (fun x => x = 0%float)) (createPivotTable records config).(data)
  ∧ (∀ (item : PivotData) field,
       item !! field = None ∨ item !! field = Some Null →
       PrimFloat.is_nan (parseFloat (get item field)) = true).
Proof.
  intros Hvalues Hcount Havg Hnan. split.
  - rewrite createPivotTable_unfold. destruct records as [|x l]; [constructor|].
    cbv beta iota zeta. revert Hnan. generalize (x :: l). clear x l. intros records Hnan.
    cbn [data]. apply Forall_forall. intros row [r [-> _]]%list_elem_of_fmap.
    apply Forall_forall. intros v [c [-> _]]%list_elem_of_fmap.
    unfold cell_value.
    assert (Forall (fun v => v = 0%float)
              (valueList config.(values) (subset config r c records))) as Hz.
    { apply valueList_zeros. intros item field Hin. apply Hnan.
      by apply subset_elem in Hin as [? _]. }
    destruct (subset config r c records) as [|y ys] eqn:E; [done|].
    set (a := default "sum" (aggregation config)) in *.
    destruct (decide (a ∈ known_kinds)) as [Hk|Hk].
    + unfold known_kinds in Hk.
      repeat (apply elem_of_cons in Hk as [Hk|Hk]); try done.
      * rewrite Hk, (aggregateValues_kind _ _ Sum) by done. by apply fold_add_zeros.
      * rewrite Hk, (aggregateValues_kind _ _ Min) by done. simpl reduce.
        destruct (Math_min_is_minimum (valueList (values config) (y :: ys))) as [Hin _];
          [by apply valueList_nonempty|apply valueList_clean|].
        rewrite Forall_forall in Hz. by apply Hz.
      * rewrite Hk, (aggregateValues_kind _ _ Max) by done. simpl reduce.
        destruct (Math_max_is_maximum (valueList (values config) (y :: ys))) as [Hin _];
          [by apply valueList_nonempty|apply valueList_clean|].
        rewrite Forall_forall in Hz. by apply Hz.
      * by apply elem_of_nil in Hk.
    + rewrite (aggregateValues_unknown _ _ _ Hk), (aggregateValues_kind _ _ Sum) by done.
      by apply fold_add_zeros.
  - intros item field [H|H]; unfold get; rewrite H.
    + apply parseFloat_Object_prototype.
    + vm_compute. reflexivity.
Qed.

Lemma unparsable_values_give_zero_witness :
  Forall (Forall (fun x => x = 0%float))
    (createPivotTable [ {[ "s" := Str "A"; "o" := Str "X"; "b" := Str "n/a" ]};
                        {[ "s" := Str "B"; "o" := Str "X" ]} ]
       (cfg1 (Some "max"))).(data).
Proof.
  apply (unparsable_values_give_zero
           [ {[ "s" := Str "A"; "o" := Str "X"; "b" := Str "n/a" ]};
             {[ "s" := Str "B"; "o" := Str "X" ]} ] (cfg1 (Some "max")));
    [discriminate | discriminate | discriminate |].
  intros item field Hin Hf.
  apply list_elem_of_singleton in Hf as ->.
  repeat (apply elem_of_cons in Hin as [->|Hin]);
    [vm_compute; reflexivity | vm_compute; reflexivity | by apply elem_of_nil in Hin].
Defined.

(** ** Records from board items *)

Lemma assign_dom (row : PivotData) (key : string) (v : value) :
  dom (Index.assign row key v)
  = dom row ∪ list_to_set (List.filter (fun t => negb (String.eqb t "__proto__")) [key]).
Proof.
  unfold Index.assign. simpl. destruct (String.eqb key "__proto__"); simpl.
  - by rewrite union_empty_r_L.
  - rewrite dom_insert_L, union_empty_r_L. apply union_comm_L.
Qed.

Lemma fold_assign_columns_dom (cols : list Index.column_value) (row : PivotData) :
  dom (fold_left
         (fun (row : PivotData) col =>
            Index.assign row col.(Index.title)
              (if Index.isNaN (Index.Number col.(Index.text)) then Str col.(Index.text)
               else Num (Index.Number col.(Index.text))))
         cols row)
  = dom row
    ∪ list_to_set (List.filter (fun t => negb (String.eqb t "__proto__"))
                     (map Index.title cols)).
Proof.
  revert row. induction cols as [|col cols IH]; intros row.
  - simpl. by rewrite union_empty_r_L.
  - cbn [fold_left map]. rewrite IH, assign_dom.
    change (Index.title col :: map Index.title cols)
      with ([Index.title col] ++ map Index.title cols).
    rewrite List.filter_app, list_to_set_app_L. by rewrite union_assoc_L.
Qed.

Lemma fold_assign_columns_lookup (cols : list Index.column_value) (row : PivotData)
    (field : string) :
  field ∉ map Index.title cols ∨ field = "__proto__" →
  fold_left
    (fun (row : PivotData) col =>
       Index.assign row col.(Index.title)
         (if Index.isNaN (Index.Number col.(Index.text)) then Str col.(Index.text)
          else Num (Index.Number col.(Index.text))))
    cols row !! field
  = row !! field.
Proof.
  revert row. induction cols as [|col cols IH]; intros row Hnot; simpl; [done|].
  rewrite IH.
  - unfold Index.assign.
    destruct (String.eqb_spec (Index.title col) "__proto__") as [Heq|Hne]; [done|].
    apply lookup_insert_ne. intros Heq. destruct Hnot as [Hnot| ->].
    + apply Hnot. rewrite <- Heq. apply list_elem_of_here.
    + done.
  - destruct Hnot as [Hnot|Heq]; [left|by right].
    intros Hin. apply Hnot. by apply list_elem_of_further.
Qed.

Lemma itemToRow_last_column (item : Index.MondayItem) pre col post :
  item.(Index.column_values) = pre ++ col :: post →
  col.(Index.title) ∉ map Index.title post →
  col.(Index.title) ≠ "__proto__" →
  Index.itemToRow item !! col.(Index.title) = Some (stored_value col.(Index.text)).
Proof.
  intros Hcols Hnot Hproto. unfold Index.itemToRow. rewrite Hcols, fold_left_app. simpl.
  rewrite fold_assign_columns_lookup by (by left).
  unfold Index.assign. apply String.eqb_neq in Hproto. rewrite Hproto.
  by rewrite lookup_insert_eq.
Qed.

(** A column titled "__proto__" stores nothing, and reading that field
    of the record gives Object.prototype. *)
Lemma itemToRow_proto (item : Index.MondayItem) :
  Index.itemToRow item !! "__proto__" = None.
Proof.
  unfold Index.itemToRow. rewrite fold_assign_columns_lookup by (by right).
  by apply lookup_singleton_ne.
Qed.

Lemma stored_value_kind (text : string) :
  stored_value text = Str text
  ∨ ∃ x, stored_value text = Num x ∧ PrimFloat.is_nan x = false.
Proof.
  unfold stored_value, Index.isNaN.
  destruct (PrimFloat.is_nan (Index.Number text)) eqn:E; eauto.
Qed.

Lemma trim_start_blank (text : string) : blank text = true → trim_start text = "".
Proof.
  induction text as [|c text IH]; simpl; [done|].
  intros [-> H]%andb_true_iff. by apply IH.
Qed.

Lemma Number_blank (text : string) : blank text = true → Index.Number text = 0%float.
Proof.
  intros H. unfold Index.Number, Index.trim. by rewrite (trim_start_blank _ H).
Qed.

(** The fields of the record of an item are "name" and the titles of its
    columns other than "__proto__" (the assignment to that key stores
    nothing), and what they hold is a text or a number that is not NaN:
    never undefined, null or a boolean. *)
Theorem itemToRow_fields (item : Index.MondayItem) :
  dom (Index.itemToRow item) = {[ "name" ]} ∪ list_to_set (stored_titles item)
  ∧ ∀ field v, Index.itemToRow item !! field = Some v →
      (∃ s, v = Str s) ∨ (∃ x, v = Num x ∧ PrimFloat.is_nan x = false).
Proof.
  split.
  - unfold Index.itemToRow, stored_titles.
    rewrite fold_assign_columns_dom. by rewrite dom_singleton_L.
  - unfold Index.itemToRow.
    generalize (Index.column_values item).
    assert (∀ field v, ({[ "name" := Str (Index.name item) ]} : PivotData) !! field = Some v →
              (∃ s, v = Str s) ∨ (∃ x, v = Num x ∧ PrimFloat.is_nan x = false)) as Hinit.
    { intros field v [_ <-]%lookup_singleton_Some. eauto. }
    revert Hinit. generalize ({[ "name" := Str (Index.name item) ]} : PivotData).
    intros row Hrow cols. revert row Hrow.
    induction cols as [|col cols IH]; intros row Hrow; simpl; [done|].
    apply IH. intros field v. unfold Index.assign.
    destruct (String.eqb (Index.title col) "__proto__"); [apply Hrow|].
    destruct (decide (Index.title col = field)) as [<-|Hne].
    + rewrite lookup_insert_eq. intros [= <-].
      destruct (stored_value_kind (Index.text col)) as [H|H];
        unfold stored_value in H; [left; eauto|right; exact H].
    + rewrite lookup_insert_ne by done. apply Hrow.
Qed.

Lemma itemToRow_name (item : Index.MondayItem) :
  "name" ∉ map Index.title item.(Index.column_values) →
  Index.itemToRow item !! "name" = Some (Str item.(Index.name)).
Proof.
  intros Hname. unfold Index.itemToRow.
  rewrite fold_assign_columns_lookup by (by left). apply lookup_singleton_eq.
Qed.

(** When several columns of an item have the same title (other than
    "__proto__"), the record holds the value of the last one: its text
    when the text is not numeric, else the number.  The item's name is
    kept under "name" unless a column has that title.  A column titled
    "__proto__" leaves no field in the record. *)
Theorem itemToRow_last_column_wins (item : Index.MondayItem)
    (pre post : list Index.column_value) (col : Index.column_value) :
  item.(Index.column_values) = pre ++ col :: post →
  col.(Index.title) ∉ map Index.title post →
  col.(Index.title) ≠ "__proto__" →
  Index.itemToRow item !! col.(Index.title)
    = Some (if Index.isNaN (Index.Number col.(Index.text)) then Str col.(Index.text)
            else Num (Index.Number col.(Index.text)))
  ∧ ("name" ∉ map Index.title item.(Index.column_values) →
     Index.itemToRow item !! "name" = Some (Str item.(Index.name)))
  ∧ Index.itemToRow item !! "__proto__" = None.
Proof.
  intros Hcols Hnot Hproto. split_and!.
  - by apply (itemToRow_last_column item pre col post).
  - apply itemToRow_name.
  - apply itemToRow_proto.
Qed.

Lemma itemToRow_last_column_wins_witness :
  Index.itemToRow item1 !! "status" = Some (Str "Later")
  ∧ Index.itemToRow item1 !! "name" = Some (Str "Project A").
Proof.
  destruct (itemToRow_last_column_wins item1
              [ {| Index.title := "status"; Index.text := "Done"; Index.value := "" |};
                {| Index.title := "budget"; Index.text := " 100.50 "; Index.value := "" |};
                {| Index.title := "note"; Index.text := ""; Index.value := "" |} ]
              [] {| Index.title := "status"; Index.text := "Later"; Index.value := "" |})
    as (H1 & H2 & _); [reflexivity | apply not_elem_of_nil | discriminate |].
  split; [exact H1|]. apply H2. simpl. intros Hin.
  repeat (apply elem_of_cons in Hin as [Hin|Hin]; [discriminate|]).
  by apply elem_of_nil in Hin.
Defined.

(** The group key of a record on a board column (titled other than
    "__proto__"): the text itself when it is not numeric, else the
    number's string (so "1.0" and " 1 " are both keyed "1"); a blank text
    is numeric, 0, and is keyed "0", not "".  On the field "__proto__" the
    key of every such record is "[object Object]": no column is stored
    under it and the record inherits Object.prototype there. *)
Theorem board_column_group_key (item : Index.MondayItem)
    (pre post : list Index.column_value) (col : Index.column_value) :
  item.(Index.column_values) = pre ++ col :: post →
  col.(Index.title) ∉ map Index.title post →
  col.(Index.title) ≠ "__proto__" →
  groupKey [col.(Index.title)] (Index.itemToRow item)
    = (if Index.isNaN (Index.Number col.(Index.text)) then col.(Index.text)
       else Number_toString (Index.Number col.(Index.text)))
  ∧ (blank col.(Index.text) = true →
     groupKey [col.(Index.title)] (Index.itemToRow item) = "0")
  ∧ groupKey ["__proto__"] (Index.itemToRow item) = "[object Object]".
Proof.
  intros Hcols Hnot Hproto.
  assert (groupKey [col.(Index.title)] (Index.itemToRow item)
          = (if Index.isNaN (Index.Number col.(Index.text)) then col.(Index.text)
             else Number_toString (Index.Number col.(Index.text)))) as Hkey.
  { unfold groupKey. simpl.
    rewrite (field_text_own _ _ _ (itemToRow_last_column item pre col post Hcols Hnot Hproto)).
    unfold stored_value. by destruct (Index.isNaN _). }
  split_and!; [done| |].
  - intros Hblank. rewrite Hkey, (Number_blank _ Hblank). reflexivity.
  - unfold groupKey. simpl.
    rewrite (field_text_missing _ _ (itemToRow_proto item)). reflexivity.
Qed.

Lemma board_column_group_key_witness :
  groupKey ["budget"] (Index.itemToRow item1) = "100.5"
  ∧ groupKey ["note"] (Index.itemToRow item1) = "0".
Proof.
  split.
  - destruct (board_column_group_key item1
                [ {| Index.title := "status"; Index.text := "Done"; Index.value := "" |} ]
                [ {| Index.title := "note"; Index.text := ""; Index.value := "" |};
                  {| Index.title := "status"; Index.text := "Later"; Index.value := "" |} ]
                {| Index.title := "budget"; Index.text := " 100.50 "; Index.value := "" |})
      as [H _]; [reflexivity | | discriminate |].
    + simpl. intros Hin.
      repeat (apply elem_of_cons in Hin as [Hin|Hin]; [discriminate|]).
      by apply elem_of_nil in Hin.
    + etrans; [exact H|]. vm_compute. reflexivity.
  - destruct (board_column_group_key item1
                [ {| Index.title := "status"; Index.text := "Done"; Index.value := "" |};
                  {| Index.title := "budget"; Index.text := " 100.50 "; Index.value := "" |} ]
                [ {| Index.title := "status"; Index.text := "Later"; Index.value := "" |} ]
                {| Index.title := "note"; Index.text := ""; Index.value := "" |})
      as (_ & H & _); [reflexivity | | discriminate |].
    + simpl. intros Hin.
      repeat (apply elem_of_cons in Hin as [Hin|Hin]; [discriminate|]).
      by apply elem_of_nil in Hin.
    + exact (H eq_refl).
Defined.

(** ** The table component *)

Lemma Array_join_strings (l : list string) (sep : string) :
  Array_join (map Str l) sep = String.concat sep l.
Proof.
  rewrite Array_join_concat, map_map. f_equal. by rewrite map_id.
Qed.

(** What the component shows: the "No data to display" element exactly
    when there are no records; otherwise a table with one header row and
    one body row per row header, each body row made of its own row header
    and the formatted aggregate of every column group, in header order. *)
Theorem PivotTable_view (records : list PivotData) (config : PivotConfig)
    (className : option string) :
  View.PivotTable records config className
  = match records with
    | [] => empty_view className
    | _ :: _ =>
        View.Elem "div" None (Some ("pivot-table-container " +:+ default "" className))
          [ View.Elem "table" None (Some "pivot-table")
              [ View.Elem "thead" None None
                  [ header_row config (getUniqueValues records config.(columns)) ];
                View.Elem "tbody" None None
                  (imap (body_row config records (getUniqueValues records config.(columns)))
                     (getUniqueValues records config.(rows))) ] ]
    end.
Proof.
  unfold View.PivotTable. rewrite createPivotTable_unfold.
  destruct records as [|x l]; [done|]. cbv beta iota zeta.
  assert (x :: l ≠ []) as Hrec by done.
  revert Hrec. generalize (x :: l). clear x l. intros records Hrec.
  pose proof (getUniqueValues_nonempty records config.(rows) Hrec) as Hne.
  cbn [data rowHeaders columnHeaders].
  destruct (getUniqueValues records (rows config)) as [|r0 rs] eqn:E; [done|].
  rewrite <- E. rewrite length_map, E. cbn [length Nat.eqb]. rewrite <- E.
  do 3 f_equal. clear E Hne r0 rs.
  assert (∀ (A B : Type) (f : A → B) l, map f l = f <$> l) as Hmap by done.
  f_equal; [|f_equal]; f_equal.
  - f_equal. unfold header_row. by rewrite Array_join_strings.
  - rewrite Hmap, imap_fmap. apply imap_ext. intros i r Hi. simpl.
    unfold body_row, View.child_at. rewrite Hi. do 2 f_equal.
    by rewrite Hmap, imap_fmap.
Qed.

Lemma str_length_app (a b : string) :
  String.length (a +:+ b) = (String.length a + String.length b)%nat.
Proof.
  induction a as [|c a IH]; [done|].
  change (S (String.length (a +:+ b)) = S (String.length a + String.length b)).
  by rewrite IH.
Qed.

Lemma substring_length (s : string) (n m : nat) :
  (n + m <= String.length s)%nat → String.length (String.substring n m s) = m.
Proof.
  revert n m. induction s as [|c s IH]; intros n m; simpl.
  - intros H. assert (n = 0 ∧ m = 0)%nat as [-> ->] by lia. done.
  - destruct n as [|n]; [destruct m as [|m]|]; simpl; intros H.
    + done.
    + rewrite IH; [done|lia].
    + apply IH. lia.
Qed.

Lemma zeros_length (n : Z) : String.length (zeros n) = Z.to_nat n.
Proof.
  unfold zeros. induction (Z.to_nat n) as [|k IH]; simpl; [done|]. by rewrite IH.
Qed.

Lemma fixed_digits_two (n : Z) :
  ∃ a b, View.fixed_digits n 2 = a +:+ "." +:+ b ∧ String.length b = 2%nat.
Proof.
  unfold View.fixed_digits. simpl Nat.eqb. cbv iota.
  set (m := if (String.length (pretty n) <=? 2)%nat
            then zeros (Z.of_nat (2 + 1 - String.length (pretty n))) +:+ pretty n
            else pretty n).
  assert (3 <= String.length m)%nat as Hlen.
  { unfold m. destruct (Nat.leb_spec (String.length (pretty n)) 2).
    - rewrite str_length_app, zeros_length. lia.
    - lia. }
  eexists _, _. split; [done|]. apply substring_length. lia.
Qed.

(** A finite number with a fraction has a mantissa of at most 53 bits and
    a negative exponent, so it is below 2^53. *)
Lemma fraction_mantissa (x : float) (neg : bool) (m : positive) (e : Z) :
  Prim2SF x = S754_finite neg m e → View.Number_isInteger x = false →
  e < 0 ∧ Z.pos m < 2 ^ 53.
Proof.
  intros E Hint. unfold View.Number_isInteger in Hint. rewrite E in Hint.
  apply orb_false_iff in Hint as [He _]. apply Z.leb_gt in He. split; [done|].
  pose proof (Prim2SF_valid x) as Hv. rewrite E in Hv.
  unfold valid_binary, bounded, canonical_mantissa in Hv.
  apply andb_true_iff in Hv as [Hc _]. apply Z.eqb_eq in Hc.
  rewrite fexp_binary64 in Hc.
  pose proof (digits2_pos_bounds m) as [_ Hhi].
  assert (Z.pos (digits2_pos m) <= 53) by lia.
  assert (2 ^ Z.pos (digits2_pos m) <= 2 ^ 53) by (apply Z.pow_le_mono_r; lia).
  lia.
Qed.

(** [formatNumber] shows a finite number that is not an integer with
    exactly two digits after the decimal point. *)
Theorem formatNumber_two_decimals (x : float) :
  x ≠ nan → x ≠ infinity → x ≠ neg_infinity →
  View.Number_isInteger x = false →
  ∃ a b, View.formatNumber x = a +:+ "." +:+ b ∧ String.length b = 2%nat.
Proof.
  intros Hnan Hinf Hninf Hint. unfold View.formatNumber.
  destruct (Prim2SF x) as [s|s| |neg m e] eqn:E.
  - unfold View.Number_isInteger in Hint. by rewrite E in Hint.
  - exfalso. rewrite <- (SF2Prim_Prim2SF x), E in Hinf, Hninf. by destruct s.
  - exfalso. by rewrite <- (SF2Prim_Prim2SF x), E in Hnan.
  - destruct (fraction_mantissa x neg m e E Hint) as [He Hm].
    assert ((x =? 0)%float = false) as ->.
    { rewrite FloatAxioms.eqb_spec, E. by destruct neg. }
    rewrite Hint. unfold View.Number_toFixed. rewrite E.
    replace (Z.max e 0) with 0 by lia.
    assert (0 < 2 ^ Z.max (- e) 0) by (apply Z.pow_pos_nonneg; lia).
    assert ((10 ^ 21 * 2 ^ Z.max (- e) 0 <=? Z.pos m * 2 ^ 0) = false) as ->.
    { apply Z.leb_gt. change (2 ^ 0) with 1. nia. }
    destruct (fixed_digits_two
                ((2 * (Z.pos m * 2 ^ 0) * 10 ^ Z.of_nat 2 + 2 ^ Z.max (- e) 0)
                 / (2 * 2 ^ Z.max (- e) 0))) as (a & b & -> & Hb).
    exists ((if neg then "-" else "") +:+ a), b. split; [|done].
    by rewrite str_app_assoc.
Qed.

Lemma formatNumber_two_decimals_witness :
  ∃ a b, View.formatNumber 2.5%float = a +:+ "." +:+ b ∧ String.length b = 2%nat.
Proof.
  apply (formatNumber_two_decimals 2.5%float);
    [intros H | intros H | intros H | reflexivity];
    apply (f_equal Prim2SF) in H; vm_compute in H; discriminate.
Defined.

(** ** Group keys on real data *)

(** Pivoting a board by "name": when no column of any item is titled
    "name", the row headers are exactly the names of the items. *)
Theorem board_rows_by_name (items : list Index.MondayItem) (config : PivotConfig)
    (g : string) :
  config.(rows) = ["name"] →
  (∀ item, item ∈ items → "name" ∉ map Index.title item.(Index.column_values)) →
  g ∈ (createPivotTable (Index.itemsToData items) config).(rowHeaders)
  ↔ ∃ item, item ∈ items ∧ item.(Index.name) = g.
Proof.
  intros Hrows Hname.
  assert (∀ item, item ∈ items → groupKey ["name"] (Index.itemToRow item) = Index.name item)
    as Hkey.
  { intros item Hin. unfold groupKey. simpl.
    by rewrite (field_text_own _ _ _ (itemToRow_name item (Hname item Hin))). }
  destruct items as [|x l].
  { simpl. split; [intros H; by apply elem_of_nil in H|].
    intros (item & H & _). by apply elem_of_nil in H. }
  destruct (headers_of_result (Index.itemsToData (x :: l)) config) as [-> _]; [done|].
  rewrite Hrows, getUniqueValues_elem. unfold Index.itemsToData. split.
  - intros (row & [item [-> Hin]]%list_elem_of_fmap & <-).
    exists item. split; [done|]. symmetry. by apply Hkey.
  - intros (item & Hin & <-). exists (Index.itemToRow item). split.
    + apply list_elem_of_fmap. eauto.
    + by apply Hkey.
Qed.

Lemma board_rows_by_name_witness :
  "Project A" ∈ (createPivotTable (Index.itemsToData [item1])
                   {| rows := ["name"]; columns := ["status"]; values := ["budget"];
                      aggregation := None |}).(rowHeaders).
Proof.
  apply (board_rows_by_name [item1]
           {| rows := ["name"]; columns := ["status"]; values := ["budget"];
              aggregation := None |} "Project A"); [reflexivity | |].
  - intros item ->%list_elem_of_singleton. simpl. intros Hin.
    repeat (apply elem_of_cons in Hin as [Hin|Hin]; [discriminate|]).
    by apply elem_of_nil in Hin.
  - exists item1. split; [apply list_elem_of_here|reflexivity].
Defined.

(** A value that contains the separator makes group keys ambiguous: the
    records {f1: s + " - " + t, f2: u} and {f1: s, f2: t + " - " + u} have
    the same key on the fields [f1, f2], and pivoting them gives a single
    row. *)
Theorem separator_in_value_merges_groups (f1 f2 s t u : string) :
  f1 ≠ f2 →
  groupKey [f1; f2] {[ f1 := Str (s +:+ " - " +:+ t); f2 := Str u ]}
    = groupKey [f1; f2] {[ f1 := Str s; f2 := Str (t +:+ " - " +:+ u) ]}
  ∧ (createPivotTable
       [ {[ f1 := Str (s +:+ " - " +:+ t); f2 := Str u ]};
         {[ f1 := Str s; f2 := Str (t +:+ " - " +:+ u) ]} ]
       {| rows := [f1; f2]; columns := []; values := []; aggregation := None |}).(rowHeaders)
    = [ s +:+ " - " +:+ t +:+ " - " +:+ u ].
Proof.
  intros Hne.
  assert (∀ a b : string,
            groupKey [f1; f2] ({[ f1 := Str a; f2 := Str b ]} : PivotData)
            = a +:+ " - " +:+ b) as Hkey.
  { intros a b. unfold groupKey. simpl.
    rewrite (field_text_own _ f1 (Str a)) by apply lookup_insert_eq.
    rewrite (field_text_own _ f2 (Str b))
      by (rewrite lookup_insert_ne by done; apply lookup_singleton_eq).
    done. }
  assert (groupKey [f1; f2] ({[ f1 := Str (s +:+ " - " +:+ t); f2 := Str u ]} : PivotData)
          = s +:+ " - " +:+ t +:+ " - " +:+ u) as H1.
  { rewrite Hkey. by rewrite !str_app_assoc. }
  assert (groupKey [f1; f2] ({[ f1 := Str s; f2 := Str (t +:+ " - " +:+ u) ]} : PivotData)
          = s +:+ " - " +:+ t +:+ " - " +:+ u) as H2.
  { by rewrite Hkey. }
  split; [by rewrite H1, H2|].
  rewrite createPivotTable_unfold. cbv beta iota zeta. cbn [rowHeaders rows].
  rewrite getUniqueValues_fold. cbn [map fold_left]. rewrite H1, H2.
  unfold Set_add at 2. rewrite decide_False by apply not_elem_of_nil.
  cbn [app]. unfold Set_add. rewrite decide_True by apply list_elem_of_here.
  reflexivity.
Qed.

Lemma separator_in_value_merges_groups_witness :
  (createPivotTable
     [ {[ "a" := Str "x - y"; "b" := Str "z" ]}; {[ "a" := Str "x"; "b" := Str "y - z" ]} ]
     {| rows := ["a"; "b"]; columns := []; values := []; aggregation := None |}).(rowHeaders)
  = [ "x - y - z" ].
Proof.
  destruct (separator_in_value_merges_groups "a" "b" "x" "y" "z") as [_ H];
    [discriminate|]. exact H.
Defined.
